(** * Composed resources: configuration, overlay, connection details, readiness

    A shallow embedding of
    [pkg/controller/apiextensions/composite/composed/api.go]: the four
    operations [Configure], [Overlay], [Fetch] and [IsReady] on a composed
    resource, with the errors, the dynamic documents and the collaborators
    they are written against. Go's mutation of the composed resource is
    explicit state passing: every operation that receives [cd] returns the
    [cd] it leaves behind. A Go [error] is an [option error], [None] being
    [nil]. *)

From Stdlib.Strings Require Import Byte Ascii String.
From Stdlib Require Import ZArith NArith.
From stdpp Require Import base decidable option strings list gmap pretty.

Local Open Scope string_scope.
#[local] Set Warnings "-register-all".

(** ** Errors (github.com/pkg/errors, fieldpath and apimachinery errors) *)

Module errors.

(** [New] is what [errors.New] and [errors.Errorf] build, [Wrap] what
    [errors.Wrap] and [errors.Wrapf] build; [NotFound] is the error of a
    path that addresses nothing in a document, [StatusError] an error of
    the API server with its reason. *)
Inductive error : Type :=
| New (msg : string)
| Wrap (cause : error) (msg : string)
| NotFound (e : error)
| StatusError (reason : string) (msg : string).

(** [errors.Cause]: only wrapped errors have a cause to descend into. *)
Fixpoint Cause (e : error) : error :=
  match e with
  | Wrap c _ => Cause c
  | _ => e
  end.

End errors.
Export errors.

(** ** Panics

    A single-value type assertion on a value of another type does not
    return: the goroutine panics. [outcome] tells the two apart. *)

Inductive outcome (A : Type) : Type :=
| Done (a : A)
| Panic (msg : string).
Arguments Done {A} a.
Arguments Panic {A} msg.

Definition outcome_bind {A B} (m : outcome A) (k : A -> outcome B) : outcome B :=
  match m with
  | Done a => k a
  | Panic msg => Panic msg
  end.

Notation "x <-! m ; k" := (outcome_bind m (fun x => k))
  (at level 100, m at next level, right associativity).

(** ** Dynamic documents

    The content of an unstructured object: what JSON decodes to in Go
    ([nil], [bool], [int64], [float64], [string], [[]interface{}],
    [map[string]interface{}]). No arithmetic is done on floats here, they
    are carried as their IEEE-754 bits. *)

Inductive value : Type :=
| VNil
| VBool (b : bool)
| VInt64 (z : Z)
| VFloat64 (bits : Z)
| VString (s : string)
| VSlice (l : list value)
| VMap (m : gmap string value).

(** [v == s] for an [interface{}] against a string: equal dynamic type and
    equal value. *)
Definition value_eq_string (v : value) (s : string) : bool :=
  match v with
  | VString s' => bool_decide (s' = s)
  | _ => false
  end.

(** [v.(string)], the single-value form. *)
Definition assert_string (v : value) : outcome string :=
  match v with
  | VString s => Done s
  | _ => Panic "interface conversion: interface {} is not string"
  end.

Module fieldpath.

Inductive Segment : Type :=
| Field (name : string)
| Index (i : N).

Definition Segments := list Segment.

Definition is_digit (c : ascii) : bool :=
  let n := N_of_ascii c in (48 <=? n)%N && (n <=? 57)%N.

Definition digit_value (c : ascii) : N := (N_of_ascii c - 48)%N.

Fixpoint digits_value (acc : N) (s : string) : option N :=
  match s with
  | EmptyString => Some acc
  | String c s' =>
      if is_digit c then digits_value (acc * 10 + digit_value c)%N s' else None
  end.

(** [strconv.ParseUint(s, 10, 32)]. *)
Definition ParseUint32 (s : string) : option N :=
  match s with
  | EmptyString => None
  | _ =>
      match digits_value 0%N s with
      | Some n => if (n <? 2 ^ 32)%N then Some n else None
      | None => None
      end
  end.

Definition FieldOrIndex (s : string) : Segment :=
  match ParseUint32 s with
  | Some i => Index i
  | None => Field s
  end.

Inductive lexmode : Type := InField | InBracket.

Definition emit_field (acc : string) (out : Segments) : Segments :=
  match acc with
  | EmptyString => out
  | _ => (out ++ [Field acc])%list
  end.

Definition snoc (s : string) (c : ascii) : string := s ++ String c EmptyString.

(** Modelled from the spec: the path lexer of the dynamic document is not
    in this package. Paths are dotted and bracketed: [a.b], [a[0].b],
    [a[b.c]]; a bracketed segment that reads as an unsigned integer
    addresses an array element, every other segment a field. *)
Fixpoint lex (mode : lexmode) (first : bool) (acc : string) (out : Segments)
    (input : string) : Segments + error :=
  match mode, input with
  | InField, EmptyString => inl (emit_field acc out)
  | InField, String "." rest =>
      if first then inr (New "unexpected '.'")
      else
        match rest with
        | EmptyString => inr (New "unexpected end of path")
        | String "." _ => inr (New "unexpected '.'")
        | String "[" _ => inr (New "unexpected '['")
        | _ => lex InField false EmptyString (emit_field acc out) rest
        end
  | InField, String "[" rest =>
      lex InBracket false EmptyString (emit_field acc out) rest
  | InField, String "]" _ => inr (New "unexpected ']'")
  | InField, String c rest => lex InField false (snoc acc c) out rest
  | InBracket, EmptyString => inr (New "unterminated '['")
  | InBracket, String "]" rest =>
      lex InField false EmptyString (out ++ [FieldOrIndex acc])%list rest
  | InBracket, String c rest => lex InBracket false (snoc acc c) out rest
  end.

Definition Parse (path : string) : Segments + error :=
  match lex InField true EmptyString [] path with
  | inl s => inl s
  | inr e => inr (Wrap e ("cannot parse path " ++ path))
  end.

(** [IsNotFound]: the cause of the error is a not-found error. *)
Definition IsNotFound (err : option error) : bool :=
  match err with
  | Some e => match Cause e with NotFound _ => true | _ => false end
  | None => false
  end.

(** Modelled from the spec: the path-addressed view of a document is not
    in this package. Resolution has three outcomes: the value found, a
    classified not-found error, any other error. *)
Fixpoint getValue (it : value) (s : Segments) : value * option error :=
  match s with
  | [] => (it, None)
  | Index i :: rest =>
      match it with
      | VSlice array =>
          match array !! N.to_nat i with
          | Some v => getValue v rest
          | None => (VNil, Some (NotFound (New "no such element")))
          end
      | _ => (VNil, Some (New "not an array"))
      end
  | Field f :: rest =>
      match it with
      | VMap object =>
          match object !! f with
          | Some v => getValue v rest
          | None => (VNil, Some (NotFound (New "no such field")))
          end
      | _ => (VNil, Some (New "not an object"))
      end
  end.

Record Paved := Pave { object : gmap string value }.

(** Modelled from the spec: the getters of the dynamic document are not in
    this package. [GetValue] resolves a path, a path without segments to
    nil; [GetString] and [GetInteger] resolve it and want a string, an
    [int64]: a value of another type is an error that is not a not-found
    error. *)
Definition GetValue (p : Paved) (path : string) : value * option error :=
  match Parse path with
  | inr e => (VNil, Some e)
  | inl [] => (VNil, None)
  | inl segments => getValue (VMap (object p)) segments
  end.

Definition GetString (p : Paved) (path : string) : string * option error :=
  match GetValue p path with
  | (_, Some err) => ("", Some err)
  | (v, None) =>
      match v with
      | VString s => (s, None)
      | _ => ("", Some (New (path ++ ": not a string")))
      end
  end.

Definition GetInteger (p : Paved) (path : string) : Z * option error :=
  match GetValue p path with
  | (_, Some err) => (0%Z, Some err)
  | (v, None) =>
      match v with
      | VInt64 z => (z, None)
      | _ => (0%Z, Some (New (path ++ ": not a (int64) number")))
      end
  end.

End fieldpath.

(** ** Objects and their metadata (metav1, meta) *)

Module metav1.

Record ObjectMeta := {
  Name : string;
  GenerateName : string;
  Namespace : string;
  Labels : option (gmap string string);
}.

(** The accessor interface [metav1.Object], as far as this package calls it. *)
Class Object (A : Type) := {
  GetObjectMeta : A -> ObjectMeta;
  SetObjectMeta : ObjectMeta -> A -> A;
}.

Section accessors.
Context {A : Type} `{Object A}.

Definition GetName (o : A) : string := Name (GetObjectMeta o).
Definition GetGenerateName (o : A) : string := GenerateName (GetObjectMeta o).
Definition GetNamespace (o : A) : string := Namespace (GetObjectMeta o).
Definition GetLabels (o : A) : option (gmap string string) :=
  Labels (GetObjectMeta o).

Definition SetName (name : string) (o : A) : A :=
  let m := GetObjectMeta o in
  SetObjectMeta {| Name := name; GenerateName := GenerateName m;
                   Namespace := Namespace m; Labels := Labels m |} o.
Definition SetGenerateName (name : string) (o : A) : A :=
  let m := GetObjectMeta o in
  SetObjectMeta {| Name := Name m; GenerateName := name;
                   Namespace := Namespace m; Labels := Labels m |} o.
Definition SetNamespace (namespace : string) (o : A) : A :=
  let m := GetObjectMeta o in
  SetObjectMeta {| Name := Name m; GenerateName := GenerateName m;
                   Namespace := namespace; Labels := Labels m |} o.
Definition SetLabels (labels : option (gmap string string)) (o : A) : A :=
  let m := GetObjectMeta o in
  SetObjectMeta {| Name := Name m; GenerateName := GenerateName m;
                   Namespace := Namespace m; Labels := labels |} o.
End accessors.

End metav1.

(** [m[k]] on a [map[string]string]: the zero value for a missing key and
    for the nil map. *)
Definition index (m : option (gmap string string)) (k : string) : string :=
  match m with
  | Some m => default "" (m !! k)
  | None => ""
  end.

Module meta.

(** [meta.AddLabels]: the new labels win over the ones already there. *)
Definition AddLabels {A : Type} `{metav1.Object A}
    (o : A) (labels : gmap string string) : A :=
  match metav1.GetLabels o with
  | None => metav1.SetLabels (Some labels) o
  | Some l => metav1.SetLabels (Some (labels ∪ l)) o
  end.

End meta.

(** ** Secrets and the client that reads them *)

Module runtimev1alpha1.

Record SecretReference := { Name : string; Namespace : string }.

Record Condition := { Type_ : string; Status : string }.

Definition TypeReady : string := "Ready".

(** [ConditionedStatus.GetCondition]: the first condition of that type,
    an unknown one when there is none. *)
Fixpoint GetCondition (conditions : list Condition) (ct : string) : Condition :=
  match conditions with
  | [] => {| Type_ := ct; Status := "Unknown" |}
  | c :: rest => if decide (Type_ c = ct) then c else GetCondition rest ct
  end.

End runtimev1alpha1.

Module types.
Record NamespacedName := { Namespace : string; Name : string }.
End types.

Module corev1.
Record Secret := { Data : gmap string (list byte) }.
Definition ConditionTrue : string := "True".
End corev1.

Module client.

(** Modelled from the spec: the secret store client is an injected
    collaborator, [Get(ctx, namespacedKey) -> (secretDocument, error)];
    not-found is a distinguishable error. A failing [Get] leaves the
    object it was handed as it was. Contexts carry no data here. *)
Record Client := { Get : types.NamespacedName -> corev1.Secret + error }.

Definition IsNotFound (err : error) : bool :=
  match err with
  | StatusError reason _ => bool_decide (reason = "NotFound")
  | _ => false
  end.

Definition IgnoreNotFound (err : error) : option error :=
  if IsNotFound err then None else Some err.

End client.

Module managed.
(** [managed.ConnectionDetails]. Where a function can return the nil map,
    it returns an [option] of this type and the nil map is [None]. *)
Definition ConnectionDetails := gmap string (list byte).
End managed.

(** ** Composite and composed resources (resource) *)

Module resource.

Record Composite := { composite_meta : metav1.ObjectMeta }.

(** [resource.Composed] is an interface. A composed resource is what the
    methods this package calls on it show: its metadata, through the
    accessors of [metav1.Object], which read back what they wrote; its
    write-connection-secret reference; its conditions; and, for the type
    assertion to [*composed.Unstructured], [Unstructured]: [Some content]
    with the value of [UnstructuredContent()] when the resource is of that
    type, [None] for every other implementation. *)
Record Composed := {
  composed_meta : metav1.ObjectMeta;
  WriteConnectionSecretToRef : option runtimev1alpha1.SecretReference;
  Conditions : list runtimev1alpha1.Condition;
  Unstructured : option (gmap string value);
}.

Global Instance Composite_Object : metav1.Object Composite := {|
  metav1.GetObjectMeta cp := composite_meta cp;
  metav1.SetObjectMeta m cp := {| composite_meta := m |};
|}.

Global Instance Composed_Object : metav1.Object Composed := {|
  metav1.GetObjectMeta cd := composed_meta cd;
  metav1.SetObjectMeta m cd :=
    {| composed_meta := m;
       WriteConnectionSecretToRef := WriteConnectionSecretToRef cd;
       Conditions := Conditions cd;
       Unstructured := Unstructured cd |};
|}.

Definition GetWriteConnectionSecretToReference (cd : Composed)
    : option runtimev1alpha1.SecretReference :=
  WriteConnectionSecretToRef cd.

Definition GetCondition (cd : Composed) (ct : string) : runtimev1alpha1.Condition :=
  runtimev1alpha1.GetCondition (Conditions cd) ct.

Definition IsConditionTrue (c : runtimev1alpha1.Condition) : bool :=
  bool_decide (runtimev1alpha1.Status c = corev1.ConditionTrue).

(** [resource.Ignore]. *)
Definition Ignore (is_ : option error -> bool) (err : option error) : option error :=
  if is_ err then None else err.

End resource.

(** ** Templates (apis/apiextensions/v1alpha1) *)

Module runtime.

(** [runtime.RawExtension]. Decoding JSON onto a composed resource is the
    work of [json.Unmarshal] and of the resource's own type, both outside
    this package: the raw bytes are carried as the update that
    unmarshalling them performs, which may overwrite any field of the
    resource and may fail. *)
Record RawExtension := {
  Raw : resource.Composed -> resource.Composed * option error;
}.

End runtime.

Module json.
(** [json.Unmarshal(raw, cd)]: the composed resource as decoding left it,
    and the error of decoding. *)
Definition Unmarshal (raw : resource.Composed -> resource.Composed * option error)
    (cd : resource.Composed) : resource.Composed * option error :=
  raw cd.
End json.

(** The types of a template are declared in the API package, outside this
    package; their fields are the ones this package reads. *)

Module v1alpha1.

(** Modelled from the spec: [Patch.Apply] lives in the API package, not
    here. A patch is an opaque unit that, given the composite and the
    composed resource, either mutates the composed resource or fails. *)
Record Patch := {
  Apply : resource.Composite -> resource.Composed -> resource.Composed * option error;
}.

(** A connection detail is a literal when it has a name and a value; else
    it names a key of the connection secret, and [Name] renames it. *)
Record ConnectionDetail := {
  Name : option string;
  FromConnectionSecretKey : option string;
  Value : option string;
}.

Definition ReadinessCheckNonEmpty : string := "NonEmpty".
Definition ReadinessCheckMatchString : string := "MatchString".
Definition ReadinessCheckMatchInteger : string := "MatchInteger".

Record ReadinessCheck := {
  Type_ : string;
  FieldPath : string;
  MatchString : string;
  MatchInteger : Z;
}.

(** Two paths into the content of the composed resource, where the name
    and the namespace of its connection secret are found. *)
Record PathSecretRef := {
  NamePath : string;
  NamespacePath : string;
}.

Record ComposedTemplate := {
  Base : runtime.RawExtension;
  Patches : list Patch;
  ConnectionDetails : list ConnectionDetail;
  ReadinessChecks : list ReadinessCheck;
  ConnectionSecretRef : option PathSecretRef;
}.

End v1alpha1.

(** ** The package: constants *)

Definition errUnmarshal : string := "cannot unmarshal base template".
Definition errFmtPatch (i : nat) : string :=
  "cannot apply the patch at index " ++ pretty i.
Definition errGetSecret : string :=
  "cannot get connection secret of composed resource".
Definition errNamePrefix : string := "name prefix is not found in labels".

Definition LabelKeyNamePrefixForComposed : string := "crossplane.io/composite".
Definition LabelKeyClaimName : string := "crossplane.io/claim-name".
Definition LabelKeyClaimNamespace : string := "crossplane.io/claim-namespace".

(** ** [DefaultConfigurator.Configure] *)

Definition Configure (cp : resource.Composite) (cd : resource.Composed)
    (t : v1alpha1.ComposedTemplate) : resource.Composed * option error :=
  let name := metav1.GetName cd in
  let namespace := metav1.GetNamespace cd in
  let namespace :=
    if decide (namespace = "")
    then index (metav1.GetLabels cp) LabelKeyClaimNamespace
    else namespace in
  match json.Unmarshal (runtime.Raw (v1alpha1.Base t)) cd with
  | (cd, Some err) => (cd, Some (Wrap err errUnmarshal))
  | (cd, None) =>
      if decide (index (metav1.GetLabels cp) LabelKeyNamePrefixForComposed = "")
      then (cd, Some (New errNamePrefix))
      else
        let cd := meta.AddLabels cd
          (<[LabelKeyNamePrefixForComposed :=
               index (metav1.GetLabels cp) LabelKeyNamePrefixForComposed]>
           (<[LabelKeyClaimName := index (metav1.GetLabels cp) LabelKeyClaimName]>
            (<[LabelKeyClaimNamespace :=
                 index (metav1.GetLabels cp) LabelKeyClaimNamespace]> ∅))) in
        let cd := metav1.SetGenerateName
          (index (metav1.GetLabels cp) LabelKeyNamePrefixForComposed ++ "-") cd in
        let cd := metav1.SetName name cd in
        let cd := metav1.SetNamespace namespace cd in
        (cd, None)
  end.

(** ** [DefaultOverlayApplicator.Overlay]

    [overlay_from i] is the loop from index [i] on. *)

Fixpoint overlay_from (i : nat) (cp : resource.Composite) (cd : resource.Composed)
    (patches : list v1alpha1.Patch) : resource.Composed * option error :=
  match patches with
  | [] => (cd, None)
  | p :: rest =>
      match v1alpha1.Apply p cp cd with
      | (cd, Some err) => (cd, Some (Wrap err (errFmtPatch i)))
      | (cd, None) => overlay_from (S i) cp cd rest
      end
  end.

Definition Overlay (cp : resource.Composite) (cd : resource.Composed)
    (t : v1alpha1.ComposedTemplate) : resource.Composed * option error :=
  overlay_from 0 cp cd (v1alpha1.Patches t).

(** ** [getWriteConnectionSecretToReference] *)

Definition getWriteConnectionSecretToReference (cd : resource.Composed)
    (t : v1alpha1.ComposedTemplate)
    : outcome (option runtimev1alpha1.SecretReference * option error) :=
  match v1alpha1.ConnectionSecretRef t with
  | None => Done (resource.GetWriteConnectionSecretToReference cd, None)
  | Some ref =>
      match resource.Unstructured cd with
      | None => Done (None, Some (New "composed resource has to be Unstructured type"))
      | Some content =>
          let paved := fieldpath.Pave content in
          match fieldpath.GetValue paved (v1alpha1.NamePath ref) with
          | (_, Some _) =>
              Done (None, Some (New ("Secret name not found at path: "
                                     ++ v1alpha1.NamePath ref)))
          | (name, None) =>
              match fieldpath.GetValue paved (v1alpha1.NamespacePath ref) with
              | (_, Some _) =>
                  Done (None, Some (New ("Secret namespace not found at path: "
                                         ++ v1alpha1.NamespacePath ref)))
              | (namespace, None) =>
                  if value_eq_string name "" || value_eq_string namespace ""
                  then Done (None, None)
                  else
                    name <-! assert_string name;
                    namespace <-! assert_string namespace;
                    Done (Some {| runtimev1alpha1.Name := name;
                                  runtimev1alpha1.Namespace := namespace |}, None)
              end
          end
      end
  end.

(** ** [APIConnectionDetailsFetcher.Fetch] *)

Record APIConnectionDetailsFetcher := { client_ : client.Client }.

(** [s.Data[k]]: the nil slice for a missing key. *)
Definition secret_data (s : corev1.Secret) (k : string) : list byte :=
  default [] (corev1.Data s !! k).

(** The body of the loop over [t.ConnectionDetails]. *)
Definition connection_detail (s : corev1.Secret) (conn : managed.ConnectionDetails)
    (d : v1alpha1.ConnectionDetail) : managed.ConnectionDetails :=
  match v1alpha1.Name d, v1alpha1.Value d with
  | Some name, Some value => <[name := list_byte_of_string value]> conn
  | _, _ =>
      match v1alpha1.FromConnectionSecretKey d with
      | None => conn
      | Some from =>
          if (length (secret_data s from) =? 0)%nat then conn
          else
            let key := match v1alpha1.Name d with Some name => name | None => from end in
            <[key := secret_data s from]> conn
      end
  end.

(** What one call of [Fetch] does: the keys it asked the client for, in
    order, and how it ended. *)
Record FetchRun := {
  requested : list types.NamespacedName;
  returned : outcome (option managed.ConnectionDetails * option error);
}.

Definition Fetch (cdf : APIConnectionDetailsFetcher) (cd : resource.Composed)
    (t : v1alpha1.ComposedTemplate) : FetchRun :=
  match getWriteConnectionSecretToReference cd t with
  | Panic msg => {| requested := []; returned := Panic msg |}
  | Done (_, Some err) => {| requested := []; returned := Done (None, Some err) |}
  | Done (None, None) => {| requested := []; returned := Done (None, None) |}
  | Done (Some sref, None) =>
      let conn : managed.ConnectionDetails := ∅ in
      let s := {| corev1.Data := ∅ |} in
      let nn := {| types.Namespace := runtimev1alpha1.Namespace sref;
                   types.Name := runtimev1alpha1.Name sref |} in
      match client.Get (client_ cdf) nn with
      | inr err =>
          match client.IgnoreNotFound err with
          | Some _ =>
              {| requested := [nn]; returned := Done (None, Some (Wrap err errGetSecret)) |}
          | None =>
              {| requested := [nn];
                 returned := Done (Some (fold_left (connection_detail s) (v1alpha1.ConnectionDetails t) conn), None) |}
          end
      | inl s =>
          {| requested := [nn];
             returned := Done (Some (fold_left (connection_detail s) (v1alpha1.ConnectionDetails t) conn), None) |}
      end
  end.

(** ** [DefaultReadinessChecker.IsReady]

    [readiness_check] is the [switch] of one iteration: [inl ready] when
    the iteration goes on to test [ready], [inr r] when it returns [r]. *)

Definition readiness_check (paved : fieldpath.Paved) (i : nat)
    (check : v1alpha1.ReadinessCheck) : bool + (bool * option error) :=
  if decide (v1alpha1.Type_ check = v1alpha1.ReadinessCheckNonEmpty) then
    let '(_, err) := fieldpath.GetValue paved (v1alpha1.FieldPath check) in
    match resource.Ignore fieldpath.IsNotFound err with
    | Some _ => inr (false, err)
    | None => inl (negb (fieldpath.IsNotFound err))
    end
  else if decide (v1alpha1.Type_ check = v1alpha1.ReadinessCheckMatchString) then
    let '(val, err) := fieldpath.GetString paved (v1alpha1.FieldPath check) in
    match resource.Ignore fieldpath.IsNotFound err with
    | Some _ => inr (false, err)
    | None => inl (negb (fieldpath.IsNotFound err)
                   && bool_decide (val = v1alpha1.MatchString check))
    end
  else if decide (v1alpha1.Type_ check = v1alpha1.ReadinessCheckMatchInteger) then
    let '(val, err) := fieldpath.GetInteger paved (v1alpha1.FieldPath check) in
    match err with
    | Some _ => inr (false, err)
    | None => inl (negb (fieldpath.IsNotFound err)
                   && bool_decide (val = v1alpha1.MatchInteger check))
    end
  else
    inr (false, Some (New ("readiness check at index " ++ pretty i
                           ++ ": an unknown type is chosen"))).

Fixpoint readiness_from (paved : fieldpath.Paved) (i : nat)
    (checks : list v1alpha1.ReadinessCheck) : bool * option error :=
  match checks with
  | [] => (true, None)
  | check :: rest =>
      match readiness_check paved i check with
      | inr r => r
      | inl ready => if negb ready then (false, None) else readiness_from paved (S i) rest
      end
  end.

Definition IsReady (cd : resource.Composed) (t : v1alpha1.ComposedTemplate)
    : bool * option error :=
  if (length (v1alpha1.ReadinessChecks t) =? 0)%nat then
    (resource.IsConditionTrue (resource.GetCondition cd runtimev1alpha1.TypeReady), None)
  else
    match resource.Unstructured cd with
    | None => (false, Some (New "composed resource has to be Unstructured type"))
    | Some content => readiness_from (fieldpath.Pave content) 0 (v1alpha1.ReadinessChecks t)
    end.

(** ** Vocabulary of the properties *)

(** Running patches one after the other for as long as they succeed: the
    composed resource the last one leaves, [None] once one has failed. *)
Fixpoint applied (cp : resource.Composite) (cd : resource.Composed)
    (patches : list v1alpha1.Patch) : option resource.Composed :=
  match patches with
  | [] => Some cd
  | p :: rest =>
      match v1alpha1.Apply p cp cd with
      | (cd, None) => applied cp cd rest
      | (_, Some _) => None
      end
  end.

(** Every check of [checks], the first of which has index [i], passes. *)
Definition all_pass (paved : fieldpath.Paved) (i : nat)
    (checks : list v1alpha1.ReadinessCheck) : Prop :=
  forall k check, checks !! k = Some check ->
    readiness_check paved (i + k) check = inl true.

(** The entries the literal connection details of a template give, the
    fetched secret set aside. *)
Definition literal_detail (conn : managed.ConnectionDetails)
    (d : v1alpha1.ConnectionDetail) : managed.ConnectionDetails :=
  match v1alpha1.Name d, v1alpha1.Value d with
  | Some name, Some value => <[name := list_byte_of_string value]> conn
  | _, _ => conn
  end.

(** A connection detail with a name and a value. *)
Definition is_literal (d : v1alpha1.ConnectionDetail) : Prop :=
  is_Some (v1alpha1.Name d) /\ is_Some (v1alpha1.Value d).

(** The key [Fetch] asks the store for, given a secret reference. *)
Definition key_of (sref : runtimev1alpha1.SecretReference) : types.NamespacedName :=
  {| types.Namespace := runtimev1alpha1.Namespace sref;
     types.Name := runtimev1alpha1.Name sref |}.

Global Instance NamespacedName_eq_dec : EqDecision types.NamespacedName.
Proof. solve_decision. Defined.

(** ** Sample resources and templates *)

Definition named (name : string) : metav1.ObjectMeta :=
  {| metav1.Name := name; metav1.GenerateName := ""; metav1.Namespace := "";
     metav1.Labels := None |}.

(** A composite without labels, and one that carries the name prefix only. *)
Definition unlabelled_parent : resource.Composite :=
  {| resource.composite_meta := named "parent" |}.

Definition prefixed_parent : resource.Composite :=
  {| resource.composite_meta :=
       {| metav1.Name := "parent"; metav1.GenerateName := "";
          metav1.Namespace := "";
          metav1.Labels := Some {[ LabelKeyNamePrefixForComposed := "db" ]} |} |}.

(** A base document that carries nothing, and one that sets the name of
    the resource it is unmarshalled onto. *)
Definition empty_base : runtime.RawExtension :=
  {| runtime.Raw cd := (cd, None) |}.

Definition naming_base (name : string) : runtime.RawExtension :=
  {| runtime.Raw cd := (metav1.SetName name cd, None) |}.

(** A base whose bytes do not decode. *)
Definition broken_base : runtime.RawExtension :=
  {| runtime.Raw cd := (cd, Some (New "unexpected end of JSON input")) |}.

Definition template_of (base : runtime.RawExtension) : v1alpha1.ComposedTemplate :=
  {| v1alpha1.Base := base; v1alpha1.Patches := [];
     v1alpha1.ConnectionDetails := []; v1alpha1.ReadinessChecks := [];
     v1alpha1.ConnectionSecretRef := None |}.

Definition unstructured (meta : metav1.ObjectMeta) (content : gmap string value)
    : resource.Composed :=
  {| resource.composed_meta := meta;
     resource.WriteConnectionSecretToRef := None;
     resource.Conditions := [];
     resource.Unstructured := Some content |}.

Definition child_x : resource.Composed := unstructured (named "x") ∅.

(** A patch that writes one top-level field of an unstructured resource,
    and a patch that fails and leaves the resource alone. *)
Definition set_content (f : gmap string value -> gmap string value)
    (cd : resource.Composed) : resource.Composed :=
  {| resource.composed_meta := resource.composed_meta cd;
     resource.WriteConnectionSecretToRef := resource.WriteConnectionSecretToRef cd;
     resource.Conditions := resource.Conditions cd;
     resource.Unstructured := f <$> resource.Unstructured cd |}.

Definition writing_patch (k : string) (v : value) : v1alpha1.Patch :=
  {| v1alpha1.Apply cp cd := (set_content (insert k v) cd, None) |}.

Definition failing_patch (msg : string) : v1alpha1.Patch :=
  {| v1alpha1.Apply cp cd := (cd, Some (New msg)) |}.

Definition three_patches : v1alpha1.ComposedTemplate :=
  {| v1alpha1.Base := empty_base;
     v1alpha1.Patches :=
       [writing_patch "p0" (VBool true); failing_patch "no such field";
        writing_patch "p2" (VBool true)];
     v1alpha1.ConnectionDetails := []; v1alpha1.ReadinessChecks := [];
     v1alpha1.ConnectionSecretRef := None |}.

Definition NonEmpty (path : string) : v1alpha1.ReadinessCheck :=
  {| v1alpha1.Type_ := v1alpha1.ReadinessCheckNonEmpty; v1alpha1.FieldPath := path;
     v1alpha1.MatchString := ""; v1alpha1.MatchInteger := 0 |}.

Definition MatchString (path s : string) : v1alpha1.ReadinessCheck :=
  {| v1alpha1.Type_ := v1alpha1.ReadinessCheckMatchString; v1alpha1.FieldPath := path;
     v1alpha1.MatchString := s; v1alpha1.MatchInteger := 0 |}.

Definition MatchInteger (path : string) (n : Z) : v1alpha1.ReadinessCheck :=
  {| v1alpha1.Type_ := v1alpha1.ReadinessCheckMatchInteger; v1alpha1.FieldPath := path;
     v1alpha1.MatchString := ""; v1alpha1.MatchInteger := n |}.

Definition checking (checks : list v1alpha1.ReadinessCheck) : v1alpha1.ComposedTemplate :=
  {| v1alpha1.Base := empty_base; v1alpha1.Patches := [];
     v1alpha1.ConnectionDetails := []; v1alpha1.ReadinessChecks := checks;
     v1alpha1.ConnectionSecretRef := None |}.

(** A document with [a] and [b] set to strings and nothing else. *)
Definition document_ab : gmap string value :=
  <["a" := VString "not-a-number"]> (<["b" := VString "y"]> ∅).

(** A store that holds one secret, and a store that is out of order. *)
Definition store_with (key : types.NamespacedName) (s : corev1.Secret)
    : APIConnectionDetailsFetcher :=
  {| client_ :=
       {| client.Get nn :=
            if decide (nn = key) then inl s
            else inr (StatusError "NotFound" "secret not found") |} |}.

Definition broken_store : APIConnectionDetailsFetcher :=
  {| client_ := {| client.Get nn := inr (StatusError "InternalError" "etcd is down") |} |}.

Definition password_secret : corev1.Secret :=
  {| corev1.Data := {[ "password" := list_byte_of_string "s3cr3t" ]} |}.

Definition user_and_password : list v1alpha1.ConnectionDetail :=
  [ {| v1alpha1.Name := Some "user"; v1alpha1.FromConnectionSecretKey := None;
       v1alpha1.Value := Some "alice" |};
    {| v1alpha1.Name := Some "pass"; v1alpha1.FromConnectionSecretKey := Some "password";
       v1alpha1.Value := None |} ].

(** A template that finds its secret through two paths of the composed
    resource, and a composed resource that has these paths and a
    write-connection-secret reference of its own as well. *)
Definition by_path : v1alpha1.ComposedTemplate :=
  {| v1alpha1.Base := empty_base; v1alpha1.Patches := [];
     v1alpha1.ConnectionDetails := user_and_password;
     v1alpha1.ReadinessChecks := [];
     v1alpha1.ConnectionSecretRef :=
       Some {| v1alpha1.NamePath := "spec.secret.name";
               v1alpha1.NamespacePath := "spec.secret.namespace" |} |}.

Definition spec_secret (name namespace : value) : gmap string value :=
  {[ "spec" := VMap {[ "secret" := VMap (<["name" := name]> {[ "namespace" := namespace ]}) ]} ]}.

Definition child_with_secret (name namespace : value) : resource.Composed :=
  {| resource.composed_meta := named "x";
     resource.WriteConnectionSecretToRef :=
       Some {| runtimev1alpha1.Name := "own"; runtimev1alpha1.Namespace := "default" |};
     resource.Conditions := [];
     resource.Unstructured := Some (spec_secret name namespace) |}.

Definition conn_key : types.NamespacedName :=
  {| types.Namespace := "prod"; types.Name := "conn" |}.

(** ** Further vocabulary and samples *)

(** The value of one label of an object, [None] when it does not carry
    the label. *)
Definition label_of {A : Type} `{metav1.Object A} (o : A) (k : string)
    : option string :=
  metav1.GetLabels o ≫= (fun l => l !! k).

(** A composite with a name prefix and a claim namespace. *)
Definition claimed_parent : resource.Composite :=
  {| resource.composite_meta :=
       {| metav1.Name := "parent"; metav1.GenerateName := "";
          metav1.Namespace := "";
          metav1.Labels :=
            Some (<[LabelKeyNamePrefixForComposed := "db"]>
                    {[ LabelKeyClaimNamespace := "team-a" ]}) |} |}.

(** A base document that sets a namespace, a label of its own and a stale
    name-prefix label. *)
Definition labelling_base : runtime.RawExtension :=
  {| runtime.Raw cd :=
       (metav1.SetNamespace "from-base"
          (metav1.SetLabels
             (Some (<["app" := "web"]> {[ LabelKeyNamePrefixForComposed := "stale" ]}))
             cd), None) |}.

Definition patching (patches : list v1alpha1.Patch) : v1alpha1.ComposedTemplate :=
  {| v1alpha1.Base := empty_base; v1alpha1.Patches := patches;
     v1alpha1.ConnectionDetails := []; v1alpha1.ReadinessChecks := [];
     v1alpha1.ConnectionSecretRef := None |}.

(** What a readiness check asks of a document: that the path resolves
    ([NonEmpty]), that it resolves to the given string ([MatchString]), to
    the given integer ([MatchInteger]). A check of another type asks
    nothing that can be satisfied. *)
Definition satisfied (paved : fieldpath.Paved) (check : v1alpha1.ReadinessCheck) : Prop :=
  (v1alpha1.Type_ check = v1alpha1.ReadinessCheckNonEmpty /\
   snd (fieldpath.GetValue paved (v1alpha1.FieldPath check)) = None) \/
  (v1alpha1.Type_ check = v1alpha1.ReadinessCheckMatchString /\
   fieldpath.GetValue paved (v1alpha1.FieldPath check)
     = (VString (v1alpha1.MatchString check), None)) \/
  (v1alpha1.Type_ check = v1alpha1.ReadinessCheckMatchInteger /\
   fieldpath.GetValue paved (v1alpha1.FieldPath check)
     = (VInt64 (v1alpha1.MatchInteger check), None)).

(** A composed resource that is not unstructured, ready by its condition. *)
Definition typed_child : resource.Composed :=
  {| resource.composed_meta := named "x";
     resource.WriteConnectionSecretToRef :=
       Some {| runtimev1alpha1.Name := "own"; runtimev1alpha1.Namespace := "default" |};
     resource.Conditions :=
       [ {| runtimev1alpha1.Type_ := runtimev1alpha1.TypeReady;
            runtimev1alpha1.Status := corev1.ConditionTrue |} ];
     resource.Unstructured := None |}.

(** A document with an empty string, a string and an integer. *)
Definition document_status : gmap string value :=
  <["empty" := VString ""]> (<["phase" := VString "Running"]> {[ "replicas" := VInt64 3 ]}).

(** The entry one connection detail puts into the map, given the secret:
    [None] when it puts none. *)
Definition writes (s : corev1.Secret) (d : v1alpha1.ConnectionDetail)
    : option (string * list byte) :=
  match v1alpha1.Name d, v1alpha1.Value d with
  | Some name, Some value => Some (name, list_byte_of_string value)
  | _, _ =>
      match v1alpha1.FromConnectionSecretKey d with
      | None => None
      | Some from =>
          if (length (secret_data s from) =? 0)%nat then None
          else Some (default from (v1alpha1.Name d), secret_data s from)
      end
  end.

(** The literal [user = alice], then the secret key [password] under the
    same name. *)
Definition user_twice : list v1alpha1.ConnectionDetail :=
  [ {| v1alpha1.Name := Some "user"; v1alpha1.FromConnectionSecretKey := None;
       v1alpha1.Value := Some "alice" |};
    {| v1alpha1.Name := Some "user"; v1alpha1.FromConnectionSecretKey := Some "password";
       v1alpha1.Value := None |} ].

Definition with_details (details : list v1alpha1.ConnectionDetail)
    : v1alpha1.ComposedTemplate :=
  {| v1alpha1.Base := empty_base; v1alpha1.Patches := [];
     v1alpha1.ConnectionDetails := details;
     v1alpha1.ReadinessChecks := [];
     v1alpha1.ConnectionSecretRef :=
       Some {| v1alpha1.NamePath := "spec.secret.name";
               v1alpha1.NamespacePath := "spec.secret.namespace" |} |}.

(** A secret with a password and with keys no template asks for. *)
Definition larger_secret : corev1.Secret :=
  {| corev1.Data :=
       <["password" := list_byte_of_string "s3cr3t"]>
         (<["token" := list_byte_of_string "t0k3n"]> {[ "unused" := [] ]}) |}.

(** A readiness check of a type this package does not know. *)
Definition regexp_check : v1alpha1.ReadinessCheck :=
  {| v1alpha1.Type_ := "MatchRegexp"; v1alpha1.FieldPath := "phase";
     v1alpha1.MatchString := "Run.*"; v1alpha1.MatchInteger := 0 |}.

(** A secret without data. *)
Definition empty_secret : corev1.Secret := {| corev1.Data := ∅ |}.

(** * Properties *)

(** ** Accessors *)

Section accessor_facts.
Context (cd : resource.Composed).

Lemma GetName_SetName name : metav1.GetName (metav1.SetName name cd) = name.
Proof. reflexivity. Qed.

Lemma GetName_SetNamespace ns :
  metav1.GetName (metav1.SetNamespace ns cd) = metav1.GetName cd.
Proof. reflexivity. Qed.

Lemma GetGenerateName_SetGenerateName g :
  metav1.GetGenerateName (metav1.SetGenerateName g cd) = g.
Proof. reflexivity. Qed.

Lemma GetGenerateName_SetName name :
  metav1.GetGenerateName (metav1.SetName name cd) = metav1.GetGenerateName cd.
Proof. reflexivity. Qed.

Lemma GetGenerateName_SetNamespace ns :
  metav1.GetGenerateName (metav1.SetNamespace ns cd) = metav1.GetGenerateName cd.
Proof. reflexivity. Qed.

Lemma GetLabels_SetName name :
  metav1.GetLabels (metav1.SetName name cd) = metav1.GetLabels cd.
Proof. reflexivity. Qed.

Lemma GetLabels_SetNamespace ns :
  metav1.GetLabels (metav1.SetNamespace ns cd) = metav1.GetLabels cd.
Proof. reflexivity. Qed.

Lemma GetLabels_SetGenerateName g :
  metav1.GetLabels (metav1.SetGenerateName g cd) = metav1.GetLabels cd.
Proof. reflexivity. Qed.

(** After [AddLabels] every added label is there with its new value. *)
Lemma GetLabels_AddLabels (labels : gmap string string) k v :
  labels !! k = Some v ->
  exists l, metav1.GetLabels (meta.AddLabels cd labels) = Some l /\ l !! k = Some v.
Proof.
  intros Hk. unfold meta.AddLabels.
  destruct (metav1.GetLabels cd) as [l0|] eqn:E.
  - exists (labels ∪ l0). split; [reflexivity|].
    by apply lookup_union_Some_l.
  - exists labels. split; [reflexivity | exact Hk].
Qed.
End accessor_facts.

(** ** Configure *)

Lemma label_keys_distinct :
  LabelKeyNamePrefixForComposed <> LabelKeyClaimName /\
  LabelKeyNamePrefixForComposed <> LabelKeyClaimNamespace /\
  LabelKeyClaimName <> LabelKeyClaimNamespace.
Proof. repeat split; discriminate. Qed.

(** The labels [Configure] hands to [AddLabels]. *)
Lemma lineage_lookup (a b c : string) :
  let m : gmap string string :=
    <[LabelKeyNamePrefixForComposed := a]>
      (<[LabelKeyClaimName := b]> (<[LabelKeyClaimNamespace := c]> ∅)) in
  m !! LabelKeyNamePrefixForComposed = Some a /\
  m !! LabelKeyClaimName = Some b /\
  m !! LabelKeyClaimNamespace = Some c.
Proof.
  destruct label_keys_distinct as (H1 & H2 & H3).
  cbv zeta. repeat split; by simplify_map_eq.
Qed.

(** C1 (as amended). When the composite's name-prefix label is absent or
    empty, [Configure] fails: with the unmarshalling error, wrapped, when the
    template's base cannot be unmarshalled onto the composed resource, and
    with the missing-name-prefix error otherwise; in that second case the
    name of the composed resource is the one it had before the call
    whenever unmarshalling the base left the name as it was. *)
Theorem Configure_missing_prefix (cp : resource.Composite) (cd : resource.Composed)
    (t : v1alpha1.ComposedTemplate) :
  index (metav1.GetLabels cp) LabelKeyNamePrefixForComposed = "" ->
  let unmarshalled := json.Unmarshal (runtime.Raw (v1alpha1.Base t)) cd in
  snd (Configure cp cd t) =
    match snd unmarshalled with
    | Some err => Some (Wrap err errUnmarshal)
    | None => Some (New errNamePrefix)
    end /\
  (snd unmarshalled = None ->
   metav1.GetName (fst unmarshalled) = metav1.GetName cd ->
   metav1.GetName (fst (Configure cp cd t)) = metav1.GetName cd).
Proof.
  intros Hprefix unmarshalled. unfold Configure. fold unmarshalled.
  destruct unmarshalled as [cd' [err|]]; simpl.
  - split; [reflexivity | discriminate].
  - rewrite decide_True by exact Hprefix. simpl. split; [reflexivity | auto].
Qed.

Lemma Configure_missing_prefix_witness :
  snd (Configure unlabelled_parent child_x (template_of empty_base))
    = Some (New errNamePrefix) /\
  metav1.GetName (fst (Configure unlabelled_parent child_x (template_of empty_base)))
    = "x".
Proof.
  destruct (Configure_missing_prefix unlabelled_parent child_x (template_of empty_base))
    as [Herr Hname]; [reflexivity|].
  split; [exact Herr | apply Hname; reflexivity].
Defined.

(** C1 as stated fails. The composite has no name-prefix label. With a
    base document that sets a name, [Configure] returns the
    missing-name-prefix error and the composed resource no longer has the
    name it had before the call; with a base that does not decode, the
    error [Configure] returns is not the missing-name-prefix error. *)
Lemma Configure_missing_prefix_renames :
  index (metav1.GetLabels unlabelled_parent) LabelKeyNamePrefixForComposed = "" /\
  (snd (Configure unlabelled_parent child_x (template_of (naming_base "y")))
     = Some (New errNamePrefix) /\
   metav1.GetName (fst (Configure unlabelled_parent child_x (template_of (naming_base "y"))))
     <> metav1.GetName child_x) /\
  snd (Configure unlabelled_parent child_x (template_of broken_base))
    <> Some (New errNamePrefix).
Proof. repeat split; vm_compute; discriminate. Qed.

(** C2. With a non-empty name-prefix label [Configure] succeeds exactly
    when the base unmarshals, and a successful [Configure] leaves the name
    of the composed resource as it was before the call, sets its
    generate-name to the prefix followed by a dash, and sets its
    name-prefix, claim-name and claim-namespace labels to the composite's
    values for them, the empty string included. *)
Theorem Configure_success (cp : resource.Composite) (cd : resource.Composed)
    (t : v1alpha1.ComposedTemplate) :
  index (metav1.GetLabels cp) LabelKeyNamePrefixForComposed <> "" ->
  (snd (Configure cp cd t) = None <->
   snd (json.Unmarshal (runtime.Raw (v1alpha1.Base t)) cd) = None) /\
  (snd (Configure cp cd t) = None ->
   let cd' := fst (Configure cp cd t) in
   metav1.GetName cd' = metav1.GetName cd /\
   metav1.GetGenerateName cd' =
     index (metav1.GetLabels cp) LabelKeyNamePrefixForComposed ++ "-" /\
   exists l : gmap string string,
     metav1.GetLabels cd' = Some l /\
     l !! LabelKeyNamePrefixForComposed =
       Some (index (metav1.GetLabels cp) LabelKeyNamePrefixForComposed) /\
     l !! LabelKeyClaimName = Some (index (metav1.GetLabels cp) LabelKeyClaimName) /\
     l !! LabelKeyClaimNamespace =
       Some (index (metav1.GetLabels cp) LabelKeyClaimNamespace)).
Proof.
  intros Hprefix. unfold Configure.
  destruct (json.Unmarshal (runtime.Raw (v1alpha1.Base t)) cd) as [cd1 [err|]].
  - split; [split; discriminate | discriminate].
  - rewrite decide_False by exact Hprefix. cbv zeta. cbn [fst snd].
    split; [split; reflexivity|]. intros _.
    set (a := index (metav1.GetLabels cp) LabelKeyNamePrefixForComposed).
    set (b := index (metav1.GetLabels cp) LabelKeyClaimName).
    set (c := index (metav1.GetLabels cp) LabelKeyClaimNamespace).
    split; [|split].
    + by rewrite GetName_SetNamespace, GetName_SetName.
    + by rewrite GetGenerateName_SetNamespace, GetGenerateName_SetName,
        GetGenerateName_SetGenerateName.
    + rewrite GetLabels_SetNamespace, GetLabels_SetName, GetLabels_SetGenerateName.
      destruct (lineage_lookup a b c) as (Ha & Hb & Hc).
      destruct (GetLabels_AddLabels cd1 _ _ _ Ha) as (l & Hl & Hla).
      exists l. split; [exact Hl|]. split; [exact Hla|].
      destruct (GetLabels_AddLabels cd1 _ _ _ Hb) as (l' & Hl' & Hlb).
      destruct (GetLabels_AddLabels cd1 _ _ _ Hc) as (l'' & Hl'' & Hlc).
      rewrite Hl in Hl', Hl''. injection Hl' as <-. injection Hl'' as <-.
      by split.
Qed.

Lemma Configure_success_witness :
  snd (Configure prefixed_parent child_x (template_of (naming_base "y"))) = None /\
  metav1.GetName (fst (Configure prefixed_parent child_x (template_of (naming_base "y"))))
    = "x" /\
  metav1.GetGenerateName
    (fst (Configure prefixed_parent child_x (template_of (naming_base "y")))) = "db-".
Proof.
  destruct (Configure_success prefixed_parent child_x (template_of (naming_base "y")))
    as [Hiff Hpost]; [vm_compute; discriminate|].
  assert (Hok : snd (Configure prefixed_parent child_x (template_of (naming_base "y")))
                = None) by (apply Hiff; reflexivity).
  destruct (Hpost Hok) as (Hname & Hgen & _).
  split; [exact Hok|]. split; [exact Hname | exact Hgen].
Defined.

(** ** Overlay *)

(** Patches that succeed are run through; the loop goes on behind them
    with the index moved on and the composed resource they left. *)
Lemma overlay_from_app cp pre : forall i cd cd1 rest,
  applied cp cd pre = Some cd1 ->
  overlay_from i cp cd (pre ++ rest) = overlay_from (i + length pre) cp cd1 rest.
Proof.
  induction pre as [|p pre IH]; intros i cd cd1 rest Happ; simpl in *.
  - injection Happ as <-. by rewrite Nat.add_0_r.
  - destruct (v1alpha1.Apply p cp cd) as [cd' [err|]]; [discriminate|].
    rewrite (IH (S i) cd' cd1 rest Happ). f_equal. lia.
Qed.

Lemma overlay_from_ok cp patches : forall i cd,
  snd (overlay_from i cp cd patches) = None ->
  applied cp cd patches = Some (fst (overlay_from i cp cd patches)).
Proof.
  induction patches as [|p ps IH]; intros i cd H; simpl in *; [reflexivity|].
  destruct (v1alpha1.Apply p cp cd) as [cd' [err|]]; [discriminate|].
  by apply IH.
Qed.

(** C3. [Overlay] runs the patches of the template in list order, each on
    the composed resource its predecessor left. When all of them succeed it
    returns no error (and only then). When the patch at index [length pre]
    fails, it returns that patch's error wrapped with this index and the
    composed resource as the failing patch left it, whatever patches
    [post] follow: none of them is applied. *)
Theorem Overlay_in_order (cp : resource.Composite) (cd : resource.Composed)
    (t : v1alpha1.ComposedTemplate) :
  (forall cd', applied cp cd (v1alpha1.Patches t) = Some cd' ->
     Overlay cp cd t = (cd', None)) /\
  (forall pre p post cd1 cd2 err,
     v1alpha1.Patches t = (pre ++ p :: post)%list ->
     applied cp cd pre = Some cd1 ->
     v1alpha1.Apply p cp cd1 = (cd2, Some err) ->
     Overlay cp cd t = (cd2, Some (Wrap err (errFmtPatch (length pre))))) /\
  (snd (Overlay cp cd t) = None ->
     applied cp cd (v1alpha1.Patches t) = Some (fst (Overlay cp cd t))).
Proof.
  unfold Overlay. repeat split.
  - intros cd' Happ.
    rewrite <- (app_nil_r (v1alpha1.Patches t)).
    by rewrite (overlay_from_app cp _ 0 cd cd' [] Happ).
  - intros pre p post cd1 cd2 err -> Happ Hfail.
    rewrite (overlay_from_app cp pre 0 cd cd1 (p :: post) Happ).
    simpl. by rewrite Hfail.
  - apply overlay_from_ok.
Qed.

Lemma Overlay_in_order_witness :
  Overlay unlabelled_parent child_x three_patches =
    (unstructured (named "x") {[ "p0" := VBool true ]},
     Some (Wrap (New "no such field") "cannot apply the patch at index 1")).
Proof.
  apply (proj1 (proj2 (Overlay_in_order unlabelled_parent child_x three_patches))
           [writing_patch "p0" (VBool true)] (failing_patch "no such field")
           [writing_patch "p2" (VBool true)]
           (unstructured (named "x") {[ "p0" := VBool true ]})).
  - reflexivity.
  - vm_compute. reflexivity.
  - reflexivity.
Defined.

(** ** IsReady *)

(** An iteration that returns from [IsReady] returns [false] and an error. *)
Lemma readiness_check_returns paved i check r :
  readiness_check paved i check = inr r -> fst r = false /\ snd r <> None.
Proof.
  unfold readiness_check, resource.Ignore.
  repeat case_decide.
  - destruct (fieldpath.GetValue paved _) as [v err]. cbv beta iota.
    destruct (fieldpath.IsNotFound err); [intros [=]|].
    destruct err; intros [=]; by subst.
  - destruct (fieldpath.GetString paved _) as [v err]. cbv beta iota.
    destruct (fieldpath.IsNotFound err); [intros [=]|].
    destruct err; intros [=]; by subst.
  - destruct (fieldpath.GetInteger paved _) as [v [e|]]; intros [=]; by subst.
  - intros [=]; by subst.
Qed.

Lemma all_pass_cons paved i check checks :
  all_pass paved i (check :: checks) <->
  readiness_check paved i check = inl true /\ all_pass paved (S i) checks.
Proof.
  unfold all_pass. split.
  - intros H. split.
    + specialize (H 0 check eq_refl). by rewrite Nat.add_0_r in H.
    + intros k c Hk. specialize (H (S k) c Hk). by rewrite Nat.add_succ_r in H.
  - intros [H0 H] [|k] c Hk; simpl in Hk.
    + injection Hk as <-. by rewrite Nat.add_0_r.
    + rewrite Nat.add_succ_r. by apply (H k c).
Qed.

(** Checks that pass are run through; the loop goes on behind them. *)
Lemma readiness_from_app paved pre : forall i rest,
  all_pass paved i pre ->
  readiness_from paved i (pre ++ rest) = readiness_from paved (i + length pre) rest.
Proof.
  induction pre as [|c pre IH]; intros i rest Hpass; simpl.
  - by rewrite Nat.add_0_r.
  - apply all_pass_cons in Hpass as [Hc Hpass].
    rewrite Hc. simpl. rewrite (IH (S i) rest Hpass). f_equal. lia.
Qed.

Lemma readiness_from_true paved checks : forall i,
  readiness_from paved i checks = (true, None) <-> all_pass paved i checks.
Proof.
  induction checks as [|c checks IH]; intros i; simpl.
  - split; [intros _ k check Hk; discriminate | reflexivity].
  - rewrite all_pass_cons.
    destruct (readiness_check paved i c) as [[|]|r] eqn:E; simpl.
    + rewrite IH. split; [by split | by intros [_ H]].
    + split; [discriminate | intros [[=] _]].
    + split; [|intros [[=] _]].
      intros ->. by destruct (readiness_check_returns _ _ _ _ E).
Qed.

Lemma IsReady_unstructured cd t content :
  v1alpha1.ReadinessChecks t <> [] ->
  resource.Unstructured cd = Some content ->
  IsReady cd t = readiness_from (fieldpath.Pave content) 0 (v1alpha1.ReadinessChecks t).
Proof.
  intros Hne Hu. unfold IsReady. rewrite Hu.
  by destruct (v1alpha1.ReadinessChecks t).
Qed.

(** How [IsReady] ends once the checks before index [length pre] have
    passed: with what the check at that index decides. *)
Lemma IsReady_reaches cd t content pre check post :
  v1alpha1.ReadinessChecks t = (pre ++ check :: post)%list ->
  resource.Unstructured cd = Some content ->
  all_pass (fieldpath.Pave content) 0 pre ->
  IsReady cd t =
    match readiness_check (fieldpath.Pave content) (length pre) check with
    | inr r => r
    | inl ready =>
        if negb ready then (false, None)
        else readiness_from (fieldpath.Pave content) (S (length pre)) post
    end.
Proof.
  intros Hchecks Hu Hpass.
  rewrite (IsReady_unstructured cd t content); [|by rewrite Hchecks; destruct pre|done].
  rewrite Hchecks, (readiness_from_app _ pre 0 _ Hpass). reflexivity.
Qed.

(** C8. With a non-empty list of readiness checks and an unstructured
    composed resource, [IsReady] returns [(true, nil)] exactly when every
    check passes; it returns
    [(false, nil)] at the first check that is not met, whatever checks
    [post] follow it; and a [NonEmpty] or [MatchString] check whose field
    path is not found is a check that is not met, not an error. *)
Theorem IsReady_all_checks (cd : resource.Composed) (t : v1alpha1.ComposedTemplate)
    (content : gmap string value) :
  v1alpha1.ReadinessChecks t <> [] ->
  resource.Unstructured cd = Some content ->
  let paved := fieldpath.Pave content in
  (IsReady cd t = (true, None) <-> all_pass paved 0 (v1alpha1.ReadinessChecks t)) /\
  (forall pre check post,
     v1alpha1.ReadinessChecks t = (pre ++ check :: post)%list ->
     all_pass paved 0 pre ->
     readiness_check paved (length pre) check = inl false ->
     IsReady cd t = (false, None)) /\
  (forall i check,
     v1alpha1.Type_ check = v1alpha1.ReadinessCheckNonEmpty \/
     v1alpha1.Type_ check = v1alpha1.ReadinessCheckMatchString ->
     fieldpath.IsNotFound (snd (fieldpath.GetValue paved (v1alpha1.FieldPath check))) = true ->
     readiness_check paved i check = inl false).
Proof.
  intros Hne Hu paved. repeat split.
  - rewrite (IsReady_unstructured cd t content Hne Hu). apply readiness_from_true.
  - rewrite (IsReady_unstructured cd t content Hne Hu). apply readiness_from_true.
  - intros pre check post Hchecks Hpass Hunmet.
    rewrite (IsReady_reaches cd t content pre check post Hchecks Hu Hpass).
    fold paved. by rewrite Hunmet.
  - intros i check Hty Hnf. unfold readiness_check, resource.Ignore.
    destruct Hty as [Hty|Hty]; rewrite Hty.
    + rewrite decide_True by done.
      destruct (fieldpath.GetValue paved _) as [v err]. cbn [snd] in Hnf.
      cbv beta iota. by rewrite Hnf.
    + rewrite decide_False by discriminate. rewrite decide_True by done.
      unfold fieldpath.GetString.
      destruct (fieldpath.GetValue paved _) as [v [err|]]; cbn [snd] in Hnf;
        [|discriminate Hnf].
      cbv beta iota. by rewrite Hnf.
Qed.

Lemma IsReady_all_checks_witness :
  IsReady (unstructured (named "x") document_ab)
    (checking [NonEmpty "a"; MatchString "b" "x"; MatchInteger "a" 5]) = (false, None).
Proof.
  apply (proj1 (proj2 (IsReady_all_checks (unstructured (named "x") document_ab)
           (checking [NonEmpty "a"; MatchString "b" "x"; MatchInteger "a" 5])
           document_ab ltac:(discriminate) eq_refl))
           [NonEmpty "a"] (MatchString "b" "x") [MatchInteger "a" 5]).
  - reflexivity.
  - intros [|k] check Hk; [|discriminate].
    injection Hk as <-. vm_compute. reflexivity.
  - vm_compute. reflexivity.
Defined.

(** C9. On an unstructured composed resource, a [MatchInteger] check
    whose field path resolves to a value that is not an integer makes
    [IsReady], once the checks before it have passed, return a
    type-mismatch error and not [(false, nil)]. *)
Theorem IsReady_MatchInteger_mismatch (cd : resource.Composed)
    (t : v1alpha1.ComposedTemplate) (content : gmap string value)
    (pre post : list v1alpha1.ReadinessCheck) (check : v1alpha1.ReadinessCheck)
    (v : value) :
  v1alpha1.ReadinessChecks t = (pre ++ check :: post)%list ->
  resource.Unstructured cd = Some content ->
  all_pass (fieldpath.Pave content) 0 pre ->
  v1alpha1.Type_ check = v1alpha1.ReadinessCheckMatchInteger ->
  fieldpath.GetValue (fieldpath.Pave content) (v1alpha1.FieldPath check) = (v, None) ->
  (forall z, v <> VInt64 z) ->
  IsReady cd t =
    (false, Some (New (v1alpha1.FieldPath check ++ ": not a (int64) number"))).
Proof.
  intros Hchecks Hu Hpass Hty Hv Hnot.
  rewrite (IsReady_reaches cd t content pre check post Hchecks Hu Hpass).
  unfold readiness_check, fieldpath.GetInteger. rewrite Hty, Hv. simpl.
  destruct v; try reflexivity. by destruct (Hnot z).
Qed.

Lemma IsReady_MatchInteger_mismatch_witness :
  IsReady (unstructured (named "x") document_ab)
    (checking [NonEmpty "a"; MatchInteger "a" 5; NonEmpty "b"])
  = (false, Some (New "a: not a (int64) number")).
Proof.
  apply (IsReady_MatchInteger_mismatch (unstructured (named "x") document_ab)
           (checking [NonEmpty "a"; MatchInteger "a" 5; NonEmpty "b"])
           document_ab [NonEmpty "a"] [NonEmpty "b"] (MatchInteger "a" 5)
           (VString "not-a-number")).
  - reflexivity.
  - reflexivity.
  - intros [|k] check Hk; [|discriminate].
    injection Hk as <-. vm_compute. reflexivity.
  - reflexivity.
  - vm_compute. reflexivity.
  - discriminate.
Defined.

(** C10. On an unstructured composed resource, a [MatchInteger] check
    whose field path is not found makes [IsReady], once the checks before
    it have passed, return the not-found error itself and not
    [(false, nil)]. *)
Theorem IsReady_MatchInteger_not_found (cd : resource.Composed)
    (t : v1alpha1.ComposedTemplate) (content : gmap string value)
    (pre post : list v1alpha1.ReadinessCheck) (check : v1alpha1.ReadinessCheck) :
  v1alpha1.ReadinessChecks t = (pre ++ check :: post)%list ->
  resource.Unstructured cd = Some content ->
  all_pass (fieldpath.Pave content) 0 pre ->
  v1alpha1.Type_ check = v1alpha1.ReadinessCheckMatchInteger ->
  fieldpath.IsNotFound
    (snd (fieldpath.GetValue (fieldpath.Pave content) (v1alpha1.FieldPath check))) = true ->
  exists err,
    snd (fieldpath.GetValue (fieldpath.Pave content) (v1alpha1.FieldPath check)) = Some err /\
    IsReady cd t = (false, Some err).
Proof.
  intros Hchecks Hu Hpass Hty Hnf.
  rewrite (IsReady_reaches cd t content pre check post Hchecks Hu Hpass).
  unfold readiness_check, fieldpath.GetInteger. rewrite Hty. simpl.
  destruct (fieldpath.GetValue _ _) as [v [err|]]; simpl in *; [|discriminate].
  by exists err.
Qed.

Lemma IsReady_MatchInteger_not_found_witness :
  exists err,
    IsReady (unstructured (named "x") document_ab)
      (checking [MatchInteger "c" 5; NonEmpty "b"]) = (false, Some err).
Proof.
  destruct (IsReady_MatchInteger_not_found (unstructured (named "x") document_ab)
              (checking [MatchInteger "c" 5; NonEmpty "b"])
              document_ab [] [NonEmpty "b"] (MatchInteger "c" 5))
    as (err & _ & H).
  - reflexivity.
  - reflexivity.
  - intros k check Hk. discriminate.
  - reflexivity.
  - vm_compute. reflexivity.
  - exists err. exact H.
Defined.

(** ** Fetch *)

(** [Fetch] once the reference is known: one request, for that reference,
    and the mapping pass over the secret the store gave, or over an empty
    secret when the store did not find one. *)
Lemma Fetch_with_reference cdf cd t sref :
  getWriteConnectionSecretToReference cd t = Done (Some sref, None) ->
  Fetch cdf cd t =
    {| requested := [key_of sref];
       returned :=
         match client.Get (client_ cdf) (key_of sref) with
         | inl s =>
             Done (Some (fold_left (connection_detail s)
                           (v1alpha1.ConnectionDetails t) ∅), None)
         | inr err =>
             if client.IsNotFound err
             then Done (Some (fold_left (connection_detail {| corev1.Data := ∅ |})
                                (v1alpha1.ConnectionDetails t) ∅), None)
             else Done (None, Some (Wrap err errGetSecret))
         end |}.
Proof.
  intros Href. unfold Fetch. rewrite Href. fold (key_of sref).
  unfold client.IgnoreNotFound.
  destruct (client.Get (client_ cdf) (key_of sref)) as [s|err]; [reflexivity|].
  by destruct (client.IsNotFound err).
Qed.

Lemma Fetch_without_reference cdf cd t err :
  getWriteConnectionSecretToReference cd t = Done (None, err) ->
  Fetch cdf cd t = {| requested := []; returned := Done (None, err) |}.
Proof. intros Href. unfold Fetch. rewrite Href. by destruct err. Qed.

Lemma value_eq_string_true v s : value_eq_string v s = true <-> v = VString s.
Proof.
  destruct v; simpl; try (split; [discriminate | intros [=]]).
  rewrite bool_decide_eq_true. split; [by intros -> | by intros [=]].
Qed.

Lemma value_eq_string_false v s : value_eq_string v s = false <-> v <> VString s.
Proof.
  rewrite <- value_eq_string_true. by destruct (value_eq_string v s).
Qed.

(** C4. Without a connection-secret reference in the template, [Fetch]
    falls back to the write-connection-secret reference of the composed
    resource and returns [(nil, nil)] when there is none. With one, the two
    paths are resolved in the content of the (unstructured) composed
    resource: a path that
    does not resolve makes [Fetch] fail with the path-not-found error of
    that path; two paths that resolve, one of them to the empty string,
    make it return [(nil, nil)]; two paths that resolve to non-empty
    strings make it ask the store for exactly that name and namespace,
    whatever reference the composed resource has of its own. *)
Theorem Fetch_secret_reference (cdf : APIConnectionDetailsFetcher)
    (cd : resource.Composed) (t : v1alpha1.ComposedTemplate) :
  (v1alpha1.ConnectionSecretRef t = None ->
     match resource.GetWriteConnectionSecretToReference cd with
     | None => Fetch cdf cd t = {| requested := []; returned := Done (None, None) |}
     | Some sref => requested (Fetch cdf cd t) = [key_of sref]
     end) /\
  (forall ref content,
     v1alpha1.ConnectionSecretRef t = Some ref ->
     resource.Unstructured cd = Some content ->
     let name := fieldpath.GetValue (fieldpath.Pave content) (v1alpha1.NamePath ref) in
     let namespace :=
       fieldpath.GetValue (fieldpath.Pave content) (v1alpha1.NamespacePath ref) in
     (snd name <> None ->
        Fetch cdf cd t =
          {| requested := [];
             returned := Done (None, Some (New ("Secret name not found at path: "
                                                ++ v1alpha1.NamePath ref))) |}) /\
     (snd name = None -> snd namespace <> None ->
        Fetch cdf cd t =
          {| requested := [];
             returned := Done (None, Some (New ("Secret namespace not found at path: "
                                                ++ v1alpha1.NamespacePath ref))) |}) /\
     (snd name = None -> snd namespace = None ->
      fst name = VString "" \/ fst namespace = VString "" ->
        Fetch cdf cd t = {| requested := []; returned := Done (None, None) |}) /\
     (forall n ns,
        name = (VString n, None) -> namespace = (VString ns, None) ->
        n <> "" -> ns <> "" ->
        requested (Fetch cdf cd t) = [{| types.Namespace := ns; types.Name := n |}])).
Proof.
  split.
  - intros Hunset.
    assert (Href : getWriteConnectionSecretToReference cd t =
                   Done (resource.GetWriteConnectionSecretToReference cd, None))
      by (unfold getWriteConnectionSecretToReference; by rewrite Hunset).
    destruct (resource.GetWriteConnectionSecretToReference cd) as [sref|].
    + by rewrite (Fetch_with_reference cdf cd t sref Href).
    + by apply Fetch_without_reference.
  - intros ref content Hset Hu name namespace.
    assert (Href : getWriteConnectionSecretToReference cd t =
      match name with
      | (_, Some _) =>
          Done (None, Some (New ("Secret name not found at path: "
                                 ++ v1alpha1.NamePath ref)))
      | (name, None) =>
          match namespace with
          | (_, Some _) =>
              Done (None, Some (New ("Secret namespace not found at path: "
                                     ++ v1alpha1.NamespacePath ref)))
          | (namespace, None) =>
              if value_eq_string name "" || value_eq_string namespace ""
              then Done (None, None)
              else
                name <-! assert_string name;
                namespace <-! assert_string namespace;
                Done (Some {| runtimev1alpha1.Name := name;
                              runtimev1alpha1.Namespace := namespace |}, None)
          end
      end)
      by (unfold getWriteConnectionSecretToReference; by rewrite Hset, Hu).
    clearbody name namespace.
    destruct name as [name [e1|]], namespace as [namespace [e2|]]; simpl;
      (split; [intros H | split; [intros H1 H2 | split; [intros H1 H2 H3 | intros n ns H1 H2 H3 H4]]]);
      try done; try (by apply Fetch_without_reference).
    + apply Fetch_without_reference. rewrite Href.
      destruct H3 as [->| ->]; simpl; [done|].
      by rewrite orb_true_r.
    + injection H1 as ->. injection H2 as ->.
      rewrite (Fetch_with_reference cdf cd t
                 {| runtimev1alpha1.Name := n; runtimev1alpha1.Namespace := ns |});
        [reflexivity|].
      rewrite Href. simpl.
      by rewrite !bool_decide_eq_false_2.
Qed.

Lemma Fetch_secret_reference_witness :
  requested (Fetch (store_with conn_key password_secret)
               (child_with_secret (VString "conn") (VString "prod")) by_path)
  = [conn_key].
Proof.
  apply (proj2 (proj2 (proj2 (proj2
           (Fetch_secret_reference (store_with conn_key password_secret)
              (child_with_secret (VString "conn") (VString "prod")) by_path)
           {| v1alpha1.NamePath := "spec.secret.name";
              v1alpha1.NamespacePath := "spec.secret.namespace" |}
           (spec_secret (VString "conn") (VString "prod")) eq_refl eq_refl)))
           "conn" "prod").
  - vm_compute. reflexivity.
  - vm_compute. reflexivity.
  - discriminate.
  - discriminate.
Defined.

(** When both paths resolve, neither to the empty string, and one of the
    two values is not a string, the unchecked conversion to a string
    panics: [Fetch] returns nothing at all. *)
Lemma Fetch_non_string_panics cdf cd t ref content name namespace :
  v1alpha1.ConnectionSecretRef t = Some ref ->
  resource.Unstructured cd = Some content ->
  fieldpath.GetValue (fieldpath.Pave content) (v1alpha1.NamePath ref) = (name, None) ->
  fieldpath.GetValue (fieldpath.Pave content) (v1alpha1.NamespacePath ref)
    = (namespace, None) ->
  name <> VString "" -> namespace <> VString "" ->
  (forall s, name <> VString s) \/ (forall s, namespace <> VString s) ->
  Fetch cdf cd t =
    {| requested := [];
       returned := Panic "interface conversion: interface {} is not string" |}.
Proof.
  intros Hset Hu Hname Hns Hn1 Hn2 Hnot.
  unfold Fetch, getWriteConnectionSecretToReference.
  rewrite Hset, Hu, Hname, Hns.
  apply value_eq_string_false in Hn1, Hn2. rewrite Hn1, Hn2. simpl.
  destruct Hnot as [Hnot|Hnot].
  - destruct name; try reflexivity. by destruct (Hnot s).
  - destruct namespace; try (by destruct name). by destruct (Hnot s).
Qed.

(** C5, on the code: a template that finds its secret through two paths,
    and a composed resource in which the name path resolves to the number
    5. [Fetch] does not return a type error, it panics. *)
Theorem Fetch_number_for_name_panics :
  returned (Fetch (store_with conn_key password_secret)
              (child_with_secret (VInt64 5) (VString "prod")) by_path)
  = Panic "interface conversion: interface {} is not string".
Proof. vm_compute. reflexivity. Qed.

(** ** The mapping pass *)

Lemma connection_detail_no_secret conn d :
  connection_detail {| corev1.Data := ∅ |} conn d = literal_detail conn d.
Proof.
  unfold connection_detail, literal_detail, secret_data. simpl.
  destruct (v1alpha1.Name d), (v1alpha1.Value d),
    (v1alpha1.FromConnectionSecretKey d); by rewrite ?lookup_empty.
Qed.

Lemma fold_left_no_secret details : forall conn,
  fold_left (connection_detail {| corev1.Data := ∅ |}) details conn
  = fold_left literal_detail details conn.
Proof.
  induction details as [|d details IH]; intros conn; simpl; [reflexivity|].
  by rewrite connection_detail_no_secret, IH.
Qed.

Lemma fold_left_no_literal details : forall conn,
  Forall (fun d => ~ is_literal d) details ->
  fold_left literal_detail details conn = conn.
Proof.
  induction details as [|d details IH]; intros conn Hall; simpl; [reflexivity|].
  inversion Hall as [|? ? Hd Hrest]; subst.
  rewrite <- (IH conn Hrest) at 2. f_equal.
  unfold literal_detail, is_literal in *.
  destruct (v1alpha1.Name d), (v1alpha1.Value d); try reflexivity.
  destruct Hd. split; eauto.
Qed.

(** C6. When the store answers not-found for the reference, [Fetch] does
    not fail: it returns a connection-details map that is not nil and holds
    the entries of the literal connection details only, so none at all when
    the template has no literal one. Every other error of the store makes
    [Fetch] return no map and that error, wrapped as the failure to get the
    connection secret. *)
Theorem Fetch_secret_not_found (cdf : APIConnectionDetailsFetcher)
    (cd : resource.Composed) (t : v1alpha1.ComposedTemplate)
    (sref : runtimev1alpha1.SecretReference) (err : error) :
  getWriteConnectionSecretToReference cd t = Done (Some sref, None) ->
  client.Get (client_ cdf) (key_of sref) = inr err ->
  (client.IsNotFound err = true ->
     returned (Fetch cdf cd t) =
       Done (Some (fold_left literal_detail (v1alpha1.ConnectionDetails t) ∅), None) /\
     (Forall (fun d => ~ is_literal d) (v1alpha1.ConnectionDetails t) ->
      returned (Fetch cdf cd t) = Done (Some ∅, None))) /\
  (client.IsNotFound err = false ->
     returned (Fetch cdf cd t) = Done (None, Some (Wrap err errGetSecret))).
Proof.
  intros Href Hget. rewrite (Fetch_with_reference cdf cd t sref Href). simpl.
  rewrite Hget. split; intros ->; [|reflexivity].
  rewrite fold_left_no_secret. split; [reflexivity|].
  intros Hall. by rewrite fold_left_no_literal.
Qed.

Lemma Fetch_secret_not_found_witness :
  returned (Fetch (store_with conn_key password_secret)
              (child_with_secret (VString "other") (VString "prod")) by_path)
  = Done (Some {[ "user" := list_byte_of_string "alice" ]}, None).
Proof.
  destruct (Fetch_secret_not_found (store_with conn_key password_secret)
              (child_with_secret (VString "other") (VString "prod")) by_path
              {| runtimev1alpha1.Name := "other"; runtimev1alpha1.Namespace := "prod" |}
              (StatusError "NotFound" "secret not found"))
    as [Hnf _].
  - vm_compute. reflexivity.
  - vm_compute. reflexivity.
  - destruct (Hnf eq_refl) as [H _]. rewrite H. vm_compute. reflexivity.
Defined.

Example Fetch_store_out_of_order :
  Fetch broken_store (child_with_secret (VString "conn") (VString "prod")) by_path =
    {| requested := [conn_key];
       returned := Done (None, Some (Wrap (StatusError "InternalError" "etcd is down")
                                       errGetSecret)) |}.
Proof. reflexivity. Qed.

(** C7. Once the secret [s] is fetched, [Fetch] returns the map that the
    connection details of the template build in order, starting from the
    empty one. A connection detail with a name and a value puts the bytes
    of the value under the name, whatever the secret holds; one that is not
    such a literal and has no secret key changes nothing; one whose secret
    key has no data in the secret changes nothing; every other one puts the
    secret's bytes at its key under its name if it has one, and under the
    secret key otherwise. A literal [user = alice] and the secret key
    [password] renamed to [pass], with [s3cr3t] under [password] in the
    secret, give [user = alice] and [pass = s3cr3t]. *)
Theorem Fetch_connection_details :
  (forall cdf cd t sref s,
     getWriteConnectionSecretToReference cd t = Done (Some sref, None) ->
     client.Get (client_ cdf) (key_of sref) = inl s ->
     returned (Fetch cdf cd t) =
       Done (Some (fold_left (connection_detail s) (v1alpha1.ConnectionDetails t) ∅),
             None)) /\
  (forall s conn d name value,
     v1alpha1.Name d = Some name -> v1alpha1.Value d = Some value ->
     connection_detail s conn d = <[name := list_byte_of_string value]> conn) /\
  (forall s conn d,
     ~ is_literal d -> v1alpha1.FromConnectionSecretKey d = None ->
     connection_detail s conn d = conn) /\
  (forall s conn d from,
     ~ is_literal d -> v1alpha1.FromConnectionSecretKey d = Some from ->
     length (secret_data s from) = 0 ->
     connection_detail s conn d = conn) /\
  (forall s conn d from,
     ~ is_literal d -> v1alpha1.FromConnectionSecretKey d = Some from ->
     length (secret_data s from) <> 0 ->
     connection_detail s conn d =
       <[default from (v1alpha1.Name d) := secret_data s from]> conn) /\
  returned (Fetch (store_with conn_key password_secret)
              (child_with_secret (VString "conn") (VString "prod")) by_path)
  = Done (Some (<["pass" := list_byte_of_string "s3cr3t"]>
                  {[ "user" := list_byte_of_string "alice" ]}), None).
Proof.
  assert (Hnl : forall s conn d, ~ is_literal d ->
    connection_detail s conn d =
      match v1alpha1.FromConnectionSecretKey d with
      | None => conn
      | Some from =>
          if (length (secret_data s from) =? 0)%nat then conn
          else <[default from (v1alpha1.Name d) := secret_data s from]> conn
      end).
  { intros s conn d Hd. unfold connection_detail, is_literal in *.
    destruct (v1alpha1.Name d), (v1alpha1.Value d); try reflexivity.
    destruct Hd. split; eauto. }
  repeat split.
  - intros cdf cd t sref s Href Hget.
    rewrite (Fetch_with_reference cdf cd t sref Href). simpl. by rewrite Hget.
  - intros s conn d name value Hn Hv. unfold connection_detail. by rewrite Hn, Hv.
  - intros s conn d Hd Hfrom. by rewrite (Hnl s conn d Hd), Hfrom.
  - intros s conn d from Hd Hfrom Hlen.
    by rewrite (Hnl s conn d Hd), Hfrom, Hlen.
  - intros s conn d from Hd Hfrom Hlen.
    rewrite (Hnl s conn d Hd), Hfrom.
    by apply Nat.eqb_neq in Hlen as ->.
Qed.

Lemma Fetch_connection_details_witness :
  returned (Fetch (store_with conn_key password_secret)
              (child_with_secret (VString "conn") (VString "prod")) by_path)
  = Done (Some (fold_left (connection_detail password_secret) user_and_password ∅), None).
Proof.
  apply (proj1 Fetch_connection_details (store_with conn_key password_secret)
           (child_with_secret (VString "conn") (VString "prod")) by_path
           {| runtimev1alpha1.Name := "conn"; runtimev1alpha1.Namespace := "prod" |}
           password_secret).
  - vm_compute. reflexivity.
  - vm_compute. reflexivity.
Defined.

(** * Further properties *)

(** ** Configure: namespace and labels *)

Lemma GetNamespace_SetNamespace (cd : resource.Composed) ns :
  metav1.GetNamespace (metav1.SetNamespace ns cd) = ns.
Proof. reflexivity. Qed.

(** [AddLabels] leaves every label it is not given as it was. *)
Lemma label_of_AddLabels_other (cd : resource.Composed) (labels : gmap string string) k :
  labels !! k = None ->
  label_of (meta.AddLabels cd labels) k = label_of cd k.
Proof.
  intros Hk. unfold label_of, meta.AddLabels.
  destruct (metav1.GetLabels cd) as [l0|] eqn:E; simpl.
  - by rewrite lookup_union_r.
  - exact Hk.
Qed.

(** X1. After a successful [Configure] the namespace of the composed
    resource is the one it had before the call when that was not empty,
    and the composite's claim-namespace label otherwise, whatever namespace
    the base of the template sets. *)
Theorem Configure_namespace (cp : resource.Composite) (cd : resource.Composed)
    (t : v1alpha1.ComposedTemplate) :
  snd (Configure cp cd t) = None ->
  metav1.GetNamespace (fst (Configure cp cd t)) =
    if decide (metav1.GetNamespace cd = "")
    then index (metav1.GetLabels cp) LabelKeyClaimNamespace
    else metav1.GetNamespace cd.
Proof.
  unfold Configure.
  destruct (json.Unmarshal (runtime.Raw (v1alpha1.Base t)) cd) as [cd1 [err|]];
    [discriminate|].
  destruct (decide (index (metav1.GetLabels cp) LabelKeyNamePrefixForComposed = ""));
    [discriminate|].
  intros _. cbv zeta. cbn [fst]. by rewrite GetNamespace_SetNamespace.
Qed.

Lemma Configure_namespace_witness :
  metav1.GetNamespace (fst (Configure claimed_parent child_x (template_of labelling_base)))
  = "team-a".
Proof.
  rewrite (Configure_namespace claimed_parent child_x (template_of labelling_base));
    reflexivity.
Defined.

(** X2. A successful [Configure] touches no label but the three lineage
    labels: every other label of the composed resource is the one that
    unmarshalling the base left, present or absent. *)
Theorem Configure_keeps_other_labels (cp : resource.Composite)
    (cd : resource.Composed) (t : v1alpha1.ComposedTemplate) (k : string) :
  snd (Configure cp cd t) = None ->
  k <> LabelKeyNamePrefixForComposed ->
  k <> LabelKeyClaimName ->
  k <> LabelKeyClaimNamespace ->
  label_of (fst (Configure cp cd t)) k =
    label_of (fst (json.Unmarshal (runtime.Raw (v1alpha1.Base t)) cd)) k.
Proof.
  unfold Configure.
  destruct (json.Unmarshal (runtime.Raw (v1alpha1.Base t)) cd) as [cd1 [err|]];
    [discriminate|].
  destruct (decide (index (metav1.GetLabels cp) LabelKeyNamePrefixForComposed = ""));
    [discriminate|].
  intros _ H1 H2 H3. cbv zeta. cbn [fst].
  unfold label_of at 1.
  rewrite GetLabels_SetNamespace, GetLabels_SetName, GetLabels_SetGenerateName.
  fold (label_of (meta.AddLabels cd1
    (<[LabelKeyNamePrefixForComposed :=
         index (metav1.GetLabels cp) LabelKeyNamePrefixForComposed]>
     (<[LabelKeyClaimName := index (metav1.GetLabels cp) LabelKeyClaimName]>
      (<[LabelKeyClaimNamespace :=
           index (metav1.GetLabels cp) LabelKeyClaimNamespace]> ∅)))) k).
  apply label_of_AddLabels_other. by simplify_map_eq.
Qed.

Lemma Configure_keeps_other_labels_witness :
  label_of (fst (Configure claimed_parent child_x (template_of labelling_base))) "app"
  = Some "web".
Proof.
  rewrite (Configure_keeps_other_labels claimed_parent child_x
             (template_of labelling_base) "app");
    [reflexivity | reflexivity | discriminate | discriminate | discriminate].
Defined.

(** ** Overlay: where an error comes from, and splitting the patches *)

(** The loop ends in one of two ways. *)
Lemma overlay_from_cases cp patches : forall i cd,
  (exists cd', applied cp cd patches = Some cd' /\
               overlay_from i cp cd patches = (cd', None)) \/
  (exists pre p post cd1 cd2 err,
     patches = (pre ++ p :: post)%list /\
     applied cp cd pre = Some cd1 /\
     v1alpha1.Apply p cp cd1 = (cd2, Some err) /\
     overlay_from i cp cd patches = (cd2, Some (Wrap err (errFmtPatch (i + length pre))))).
Proof.
  induction patches as [|p ps IH]; intros i cd; simpl.
  - left. by exists cd.
  - destruct (v1alpha1.Apply p cp cd) as [cd' [err|]] eqn:E.
    + right. exists [], p, ps, cd, cd', err. simpl. by rewrite Nat.add_0_r.
    + destruct (IH (S i) cd') as [(cd2 & Happ & Hov)|
        (pre & q & post & cd1 & cd2 & err & -> & Happ & Hq & Hov)].
      * left. by exists cd2.
      * right. exists (p :: pre), q, post, cd1, cd2, err. simpl. rewrite E.
        repeat split; try done. rewrite Hov, Nat.add_succ_r. reflexivity.
Qed.

(** The index the loop starts from shows in the error message only. *)
Lemma overlay_from_index cp patches : forall i j cd,
  fst (overlay_from i cp cd patches) = fst (overlay_from j cp cd patches) /\
  match snd (overlay_from j cp cd patches) with
  | None => snd (overlay_from i cp cd patches) = None
  | Some e =>
      exists err k, e = Wrap err (errFmtPatch (j + k)) /\
        snd (overlay_from i cp cd patches) = Some (Wrap err (errFmtPatch (i + k)))
  end.
Proof.
  induction patches as [|p ps IH]; intros i j cd; simpl; [done|].
  destruct (v1alpha1.Apply p cp cd) as [cd' [err|]]; simpl.
  - split; [done|]. exists err, 0. by rewrite !Nat.add_0_r.
  - destruct (IH (S i) (S j) cd') as [Hfst Hsnd]. split; [done|].
    destruct (snd (overlay_from (S j) cp cd' ps)) as [e|]; [|done].
    destruct Hsnd as (err & k & -> & Hi). exists err, (S k).
    rewrite Hi, !Nat.add_succ_r. by split.
Qed.

(** X3. [Overlay] fails only because a patch fails: an error it returns is
    the error of the first patch that fails, wrapped with the index of that
    patch in the template, the patches before it having been applied in
    order, and the composed resource is left as that patch left it. *)
Theorem Overlay_error (cp : resource.Composite) (cd : resource.Composed)
    (t : v1alpha1.ComposedTemplate) (e : error) :
  snd (Overlay cp cd t) = Some e ->
  exists pre p post cd1 err,
    v1alpha1.Patches t = (pre ++ p :: post)%list /\
    applied cp cd pre = Some cd1 /\
    v1alpha1.Apply p cp cd1 = (fst (Overlay cp cd t), Some err) /\
    e = Wrap err (errFmtPatch (length pre)) /\
    length pre < length (v1alpha1.Patches t).
Proof.
  unfold Overlay. intros He.
  destruct (overlay_from_cases cp (v1alpha1.Patches t) 0 cd) as
    [(cd' & _ & Hov)|(pre & p & post & cd1 & cd2 & err & Hp & Happ & Hfail & Hov)].
  - rewrite Hov in He. discriminate.
  - rewrite Hov in He |- *. simpl in *. injection He as <-.
    exists pre, p, post, cd1, err. repeat split; try done.
    rewrite Hp, length_app. simpl. lia.
Qed.

Lemma Overlay_error_witness :
  exists pre p post err,
    v1alpha1.Patches three_patches = (pre ++ p :: post)%list /\
    Wrap (New "no such field") (errFmtPatch 1) = Wrap err (errFmtPatch (length pre)) /\
    length pre < 3.
Proof.
  destruct (Overlay_error unlabelled_parent child_x three_patches
              (Wrap (New "no such field") (errFmtPatch 1)))
    as (pre & p & post & cd1 & err & Hp & _ & _ & He & Hlt).
  - vm_compute. reflexivity.
  - exists pre, p, post, err. split; [exact Hp|]. split; [exact He | exact Hlt].
Defined.

(** X4. Patches can be split: when the patches of [t1] all succeed on a
    composed resource and leave [cd1], [Overlay] with the patches of [t1]
    followed by those of [t2] leaves what [Overlay] with the patches of
    [t2] leaves on [cd1], and fails exactly when that one fails, with the
    same patch error and the index moved on by the number of patches of
    [t1]. *)
Theorem Overlay_app (cp : resource.Composite) (cd cd1 : resource.Composed)
    (t1 t2 t : v1alpha1.ComposedTemplate) :
  v1alpha1.Patches t = (v1alpha1.Patches t1 ++ v1alpha1.Patches t2)%list ->
  Overlay cp cd t1 = (cd1, None) ->
  fst (Overlay cp cd t) = fst (Overlay cp cd1 t2) /\
  match snd (Overlay cp cd1 t2) with
  | None => snd (Overlay cp cd t) = None
  | Some e2 =>
      exists err j, e2 = Wrap err (errFmtPatch j) /\
        snd (Overlay cp cd t) =
          Some (Wrap err (errFmtPatch (length (v1alpha1.Patches t1) + j)))
  end.
Proof.
  unfold Overlay. intros Hp H1.
  assert (Happ : applied cp cd (v1alpha1.Patches t1) = Some cd1).
  { rewrite (overlay_from_ok cp _ 0 cd); by rewrite H1. }
  rewrite Hp, (overlay_from_app cp _ 0 cd cd1 _ Happ). simpl.
  apply (overlay_from_index cp (v1alpha1.Patches t2)
           (length (v1alpha1.Patches t1)) 0 cd1).
Qed.

Lemma Overlay_app_witness :
  fst (Overlay unlabelled_parent child_x three_patches) =
  fst (Overlay unlabelled_parent (unstructured (named "x") {[ "p0" := VBool true ]})
         (patching [failing_patch "no such field"; writing_patch "p2" (VBool true)])).
Proof.
  apply (Overlay_app unlabelled_parent child_x
           (unstructured (named "x") {[ "p0" := VBool true ]})
           (patching [writing_patch "p0" (VBool true)])
           (patching [failing_patch "no such field"; writing_patch "p2" (VBool true)])
           three_patches).
  - reflexivity.
  - vm_compute. reflexivity.
Defined.

(** ** IsReady: what the checks ask, and what the result can be *)

(** The [switch] sets [ready] to [true] exactly for a satisfied check. *)
Lemma readiness_check_passes paved i check :
  readiness_check paved i check = inl true <-> satisfied paved check.
Proof.
  unfold readiness_check, satisfied, resource.Ignore,
    fieldpath.GetString, fieldpath.GetInteger.
  destruct (fieldpath.GetValue paved (v1alpha1.FieldPath check)) as [v err].
  cbn [snd].
  destruct (decide (v1alpha1.Type_ check = v1alpha1.ReadinessCheckNonEmpty)) as [E1|N1];
    [|destruct (decide (v1alpha1.Type_ check = v1alpha1.ReadinessCheckMatchString))
        as [E2|N2];
      [|destruct (decide (v1alpha1.Type_ check = v1alpha1.ReadinessCheckMatchInteger))
          as [E3|N3]]].
  - destruct err as [e|].
    + destruct (fieldpath.IsNotFound (Some e)); (split; [discriminate|]);
        intros [[_ [=]]|[[H _]|[H _]]]; rewrite E1 in H; discriminate.
    + split; [intros _; by left|done].
  - destruct err as [e|].
    + destruct (fieldpath.IsNotFound (Some e)); (split; [discriminate|]);
        intros [[H _]|[[_ [=]]|[H _]]]; rewrite E2 in H; discriminate.
    + destruct v; cbn;
        try (split; [discriminate|];
             intros [[H _]|[[_ [=]]|[H _]]]; rewrite E2 in H; discriminate).
      split.
      * intros [= H]. apply bool_decide_eq_true in H as ->. right; left; by split.
      * intros [[H _]|[[_ [= ->]]|[H _]]]; try (rewrite E2 in H; discriminate).
        by rewrite bool_decide_eq_true_2.
  - destruct err as [e|].
    + split; [discriminate|].
      intros [[H _]|[[H _]|[_ [=]]]]; rewrite E3 in H; discriminate.
    + destruct v; cbn;
        try (split; [discriminate|];
             intros [[H _]|[[H _]|[_ [=]]]]; rewrite E3 in H; discriminate).
      split.
      * intros [= H]. apply bool_decide_eq_true in H as ->. right; right; by split.
      * intros [[H _]|[[H _]|[_ [= ->]]]]; try (rewrite E3 in H; discriminate).
        by rewrite bool_decide_eq_true_2.
  - split; [discriminate|]. intros [[H _]|[[H _]|[H _]]]; contradiction.
Qed.

Lemma all_pass_satisfied paved i checks :
  all_pass paved i checks <-> Forall (satisfied paved) checks.
Proof.
  rewrite Forall_lookup. unfold all_pass. split; intros H k check Hk.
  - by apply (readiness_check_passes paved (i + k)), H.
  - by apply readiness_check_passes, (H k).
Qed.

(** X5. With a non-empty list of readiness checks and an unstructured
    composed resource, [IsReady] returns [(true, nil)] exactly when every
    check is satisfied by the content: the path of a [NonEmpty] check
    resolves, to any value; the path of a [MatchString] check resolves to
    the string of the check; the path of a [MatchInteger] check resolves to
    the integer of the check. *)
Theorem IsReady_ready_iff (cd : resource.Composed) (t : v1alpha1.ComposedTemplate)
    (content : gmap string value) :
  v1alpha1.ReadinessChecks t <> [] ->
  resource.Unstructured cd = Some content ->
  IsReady cd t = (true, None) <->
  Forall (satisfied (fieldpath.Pave content)) (v1alpha1.ReadinessChecks t).
Proof.
  intros Hne Hu.
  rewrite (IsReady_unstructured cd t content Hne Hu), readiness_from_true.
  apply all_pass_satisfied.
Qed.

Lemma IsReady_ready_iff_witness :
  IsReady (unstructured (named "x") document_status)
    (checking [NonEmpty "empty"; MatchString "phase" "Running"; MatchInteger "replicas" 3])
  = (true, None).
Proof.
  apply (proj2 (IsReady_ready_iff (unstructured (named "x") document_status)
    (checking [NonEmpty "empty"; MatchString "phase" "Running"; MatchInteger "replicas" 3])
    document_status ltac:(discriminate) eq_refl)).
  repeat apply Forall_cons_2; [| | |apply Forall_nil_2].
  - left. split; [reflexivity | vm_compute; reflexivity].
  - right; left. split; [reflexivity | vm_compute; reflexivity].
  - right; right. split; [reflexivity | vm_compute; reflexivity].
Defined.

(** X6. Whether an unstructured composed resource is ready does not
    depend on the order of the readiness checks: two templates whose
    checks are a permutation of each other are ready together. *)
Theorem IsReady_permutation (cd : resource.Composed)
    (t1 t2 : v1alpha1.ComposedTemplate) (content : gmap string value) :
  v1alpha1.ReadinessChecks t1 ≡ₚ v1alpha1.ReadinessChecks t2 ->
  v1alpha1.ReadinessChecks t1 <> [] ->
  resource.Unstructured cd = Some content ->
  IsReady cd t1 = (true, None) <-> IsReady cd t2 = (true, None).
Proof.
  intros Hperm Hne Hu.
  assert (Hne2 : v1alpha1.ReadinessChecks t2 <> []).
  { intros H2. rewrite H2 in Hperm. by apply Permutation_nil_r in Hperm. }
  rewrite (IsReady_unstructured cd t1 content Hne Hu),
    (IsReady_unstructured cd t2 content Hne2 Hu), !readiness_from_true,
    !all_pass_satisfied.
  by rewrite Hperm.
Qed.

Lemma IsReady_permutation_witness :
  IsReady (unstructured (named "x") document_status)
    (checking [MatchInteger "replicas" 3; NonEmpty "empty"]) = (true, None) <->
  IsReady (unstructured (named "x") document_status)
    (checking [NonEmpty "empty"; MatchInteger "replicas" 3]) = (true, None).
Proof.
  apply (IsReady_permutation (unstructured (named "x") document_status)
           (checking [MatchInteger "replicas" 3; NonEmpty "empty"])
           (checking [NonEmpty "empty"; MatchInteger "replicas" 3]) document_status).
  - apply perm_swap.
  - discriminate.
  - reflexivity.
Defined.

(** X7. A readiness check of a type that is none of [NonEmpty],
    [MatchString] and [MatchInteger], reached after the checks before it
    are satisfied, makes [IsReady] return an error that gives the index of
    the check in the template, counted from 0. *)
Theorem IsReady_unknown_type (cd : resource.Composed) (t : v1alpha1.ComposedTemplate)
    (content : gmap string value) (pre post : list v1alpha1.ReadinessCheck)
    (check : v1alpha1.ReadinessCheck) :
  v1alpha1.ReadinessChecks t = (pre ++ check :: post)%list ->
  resource.Unstructured cd = Some content ->
  Forall (satisfied (fieldpath.Pave content)) pre ->
  v1alpha1.Type_ check <> v1alpha1.ReadinessCheckNonEmpty ->
  v1alpha1.Type_ check <> v1alpha1.ReadinessCheckMatchString ->
  v1alpha1.Type_ check <> v1alpha1.ReadinessCheckMatchInteger ->
  IsReady cd t =
    (false, Some (New ("readiness check at index " ++ pretty (length pre)
                       ++ ": an unknown type is chosen"))).
Proof.
  intros Hchecks Hu Hpre N1 N2 N3.
  apply (all_pass_satisfied _ 0) in Hpre.
  rewrite (IsReady_reaches cd t content pre check post Hchecks Hu Hpre).
  unfold readiness_check. by rewrite !decide_False.
Qed.

Lemma IsReady_unknown_type_witness :
  IsReady (unstructured (named "x") document_status)
    (checking [NonEmpty "phase"; regexp_check])
  = (false, Some (New "readiness check at index 1: an unknown type is chosen")).
Proof.
  apply (IsReady_unknown_type (unstructured (named "x") document_status)
           (checking [NonEmpty "phase"; regexp_check])
           document_status [NonEmpty "phase"] [] regexp_check).
  - reflexivity.
  - reflexivity.
  - apply Forall_cons_2; [|apply Forall_nil_2].
    left. split; [reflexivity | vm_compute; reflexivity].
  - discriminate.
  - discriminate.
  - discriminate.
Defined.

(** X8. A [MatchString] check whose field path resolves to a value that is
    not a string, reached after the checks before it are satisfied, makes
    [IsReady] return an error and not [(false, nil)]. *)
Theorem IsReady_MatchString_mismatch (cd : resource.Composed)
    (t : v1alpha1.ComposedTemplate) (content : gmap string value)
    (pre post : list v1alpha1.ReadinessCheck) (check : v1alpha1.ReadinessCheck)
    (v : value) :
  v1alpha1.ReadinessChecks t = (pre ++ check :: post)%list ->
  resource.Unstructured cd = Some content ->
  Forall (satisfied (fieldpath.Pave content)) pre ->
  v1alpha1.Type_ check = v1alpha1.ReadinessCheckMatchString ->
  fieldpath.GetValue (fieldpath.Pave content) (v1alpha1.FieldPath check) = (v, None) ->
  (forall s, v <> VString s) ->
  IsReady cd t = (false, Some (New (v1alpha1.FieldPath check ++ ": not a string"))).
Proof.
  intros Hchecks Hu Hpre Hty Hv Hnot.
  apply (all_pass_satisfied _ 0) in Hpre.
  rewrite (IsReady_reaches cd t content pre check post Hchecks Hu Hpre).
  unfold readiness_check, fieldpath.GetString. rewrite Hty, Hv.
  rewrite decide_False by discriminate. rewrite decide_True by done.
  destruct v; try reflexivity. by destruct (Hnot s).
Qed.

Lemma IsReady_MatchString_mismatch_witness :
  IsReady (unstructured (named "x") document_status)
    (checking [MatchString "replicas" "3"])
  = (false, Some (New "replicas: not a string")).
Proof.
  apply (IsReady_MatchString_mismatch (unstructured (named "x") document_status)
           (checking [MatchString "replicas" "3"]) document_status [] []
           (MatchString "replicas" "3") (VInt64 3)).
  - reflexivity.
  - reflexivity.
  - apply Forall_nil_2.
  - reflexivity.
  - vm_compute. reflexivity.
  - discriminate.
Defined.

Lemma readiness_from_ready paved checks : forall i,
  fst (readiness_from paved i checks) = true ->
  snd (readiness_from paved i checks) = None.
Proof.
  induction checks as [|c checks IH]; intros i; simpl; [done|].
  destruct (readiness_check paved i c) as [[|]|r] eqn:E; simpl.
  - apply IH.
  - discriminate.
  - destruct (readiness_check_returns _ _ _ _ E) as [Hr _]. by rewrite Hr.
Qed.

(** X9. [IsReady] never says ready and returns an error at once: whatever
    the composed resource and the template, a result whose flag is [true]
    has no error. *)
Theorem IsReady_ready_without_error (cd : resource.Composed)
    (t : v1alpha1.ComposedTemplate) :
  fst (IsReady cd t) = true -> snd (IsReady cd t) = None.
Proof.
  unfold IsReady.
  destruct (length (v1alpha1.ReadinessChecks t) =? 0)%nat; [done|].
  destruct (resource.Unstructured cd) as [content|]; [|discriminate].
  apply readiness_from_ready.
Qed.

Lemma IsReady_ready_without_error_witness :
  snd (IsReady typed_child (checking [])) = None.
Proof.
  apply (IsReady_ready_without_error typed_child (checking [])).
  vm_compute. reflexivity.
Defined.



(** ** Fetch: requests and the keys of the result *)

(** X11. When the template finds the secret through paths and the
    composed resource is not unstructured, [Fetch] fails with the
    unstructured-type error and asks the store for nothing: it does not
    fall back to the write-connection-secret reference of the resource. *)
Theorem Fetch_not_unstructured (cdf : APIConnectionDetailsFetcher)
    (cd : resource.Composed) (t : v1alpha1.ComposedTemplate) :
  v1alpha1.ConnectionSecretRef t <> None ->
  resource.Unstructured cd = None ->
  Fetch cdf cd t =
    {| requested := [];
       returned := Done (None, Some (New "composed resource has to be Unstructured type")) |}.
Proof.
  intros Hset Hu. apply Fetch_without_reference.
  unfold getWriteConnectionSecretToReference.
  destruct (v1alpha1.ConnectionSecretRef t); [|done]. by rewrite Hu.
Qed.

Lemma Fetch_not_unstructured_witness :
  requested (Fetch (store_with conn_key password_secret) typed_child by_path) = [] /\
  resource.GetWriteConnectionSecretToReference typed_child <> None.
Proof.
  rewrite (Fetch_not_unstructured (store_with conn_key password_secret) typed_child by_path);
    [split|..]; (reflexivity || discriminate).
Defined.

(** How the reference resolution of [Fetch] can end. *)
Lemma Fetch_cases cdf cd t :
  (exists msg, Fetch cdf cd t = {| requested := []; returned := Panic msg |}) \/
  (exists err, Fetch cdf cd t = {| requested := []; returned := Done (None, err) |}) \/
  (exists sref,
     getWriteConnectionSecretToReference cd t = Done (Some sref, None) /\
     requested (Fetch cdf cd t) = [key_of sref]).
Proof.
  destruct (getWriteConnectionSecretToReference cd t) as [[[sref|] [err|]]|msg] eqn:E.
  - right; left. exists (Some err). unfold Fetch. by rewrite E.
  - right; right. exists sref. split; [done|].
    by rewrite (Fetch_with_reference cdf cd t sref E).
  - right; left. exists (Some err). unfold Fetch. by rewrite E.
  - right; left. exists None. unfold Fetch. by rewrite E.
  - left. exists msg. unfold Fetch. by rewrite E.
Qed.

(** X12. [Fetch] asks the store at most once. It never returns a map of
    connection details together with an error, and it returns a map only
    after it has asked the store exactly once and the store has answered
    with a secret or with not-found. *)
Theorem Fetch_one_request (cdf : APIConnectionDetailsFetcher)
    (cd : resource.Composed) (t : v1alpha1.ComposedTemplate) :
  length (requested (Fetch cdf cd t)) <= 1 /\
  (forall conn err,
     returned (Fetch cdf cd t) = Done (Some conn, err) ->
     err = None /\
     exists nn, requested (Fetch cdf cd t) = [nn] /\
       match client.Get (client_ cdf) nn with
       | inl _ => True
       | inr e => client.IsNotFound e = true
       end).
Proof.
  destruct (Fetch_cases cdf cd t) as [(msg & H)|[(err & H)|(sref & Href & Hreq)]].
  - rewrite H. simpl. split; [lia | discriminate].
  - rewrite H. simpl. split; [lia | discriminate].
  - rewrite Hreq. split; [simpl; lia|]. intros conn err.
    rewrite (Fetch_with_reference cdf cd t sref Href). simpl.
    destruct (client.Get (client_ cdf) (key_of sref)) as [s|e] eqn:G.
    + intros [= <- <-]. split; [done|]. exists (key_of sref). by rewrite G.
    + destruct (client.IsNotFound e) eqn:N; [|discriminate].
      intros [= <- <-]. split; [done|]. exists (key_of sref). by rewrite G.
Qed.

Lemma Fetch_one_request_witness :
  exists nn,
    requested (Fetch (store_with conn_key password_secret)
                 (child_with_secret (VString "conn") (VString "prod")) by_path) = [nn].
Proof.
  destruct (proj2 (Fetch_one_request (store_with conn_key password_secret)
                     (child_with_secret (VString "conn") (VString "prod")) by_path)
              (fold_left (connection_detail password_secret) user_and_password ∅) None)
    as [_ (nn & Hnn & _)].
  - vm_compute. reflexivity.
  - exists nn. exact Hnn.
Defined.

(** ** The mapping pass: where entries come from *)

Lemma connection_detail_writes s conn d :
  connection_detail s conn d =
    match writes s d with
    | Some (k, v) => <[k := v]> conn
    | None => conn
    end.
Proof.
  unfold connection_detail, writes.
  destruct (v1alpha1.Name d), (v1alpha1.Value d),
    (v1alpha1.FromConnectionSecretKey d); try reflexivity;
    by destruct (length (secret_data s _) =? 0)%nat.
Qed.

(** An entry of the map was there at the start or was written by a
    connection detail. *)
Lemma fold_left_writes_lookup s k v details : forall conn : gmap string (list byte),
  fold_left (connection_detail s) details conn !! k = Some v ->
  conn !! k = Some v \/ exists d, d ∈ details /\ writes s d = Some (k, v).
Proof.
  induction details as [|d details IH]; intros conn H; simpl in H; [by left|].
  destruct (IH _ H) as [Hd|(d' & Hin & Hw)].
  - rewrite connection_detail_writes in Hd.
    destruct (writes s d) as [[k' v']|] eqn:W; [|by left].
    unfold managed.ConnectionDetails in *.
    destruct (decide (k' = k)) as [->|Hne].
    + rewrite lookup_insert_eq in Hd. injection Hd as ->.
      right. exists d. split; [apply list_elem_of_here | done].
    + rewrite lookup_insert_ne in Hd by done. by left.
  - right. exists d'. split; [by apply list_elem_of_further | done].
Qed.

(** Connection details that write no entry for [k] leave it alone. *)
Lemma fold_left_writes_other s k details : forall conn : gmap string (list byte),
  Forall (fun d => forall v, writes s d <> Some (k, v)) details ->
  fold_left (connection_detail s) details conn !! k = conn !! k.
Proof.
  induction details as [|d details IH]; intros conn Hall; simpl; [done|].
  inversion Hall as [|? ? Hd Hrest]; subst.
  rewrite (IH _ Hrest), connection_detail_writes.
  destruct (writes s d) as [[k' v']|] eqn:W; [|done].
  unfold managed.ConnectionDetails in *.
  apply lookup_insert_ne. intros ->. by apply (Hd v').
Qed.

(** What [writes] says of a connection detail, read back on its fields. *)
Lemma writes_inv s d k v :
  writes s d = Some (k, v) ->
  (v1alpha1.Name d = Some k /\
   exists value, v1alpha1.Value d = Some value /\ v = list_byte_of_string value) \/
  (exists from,
     v1alpha1.FromConnectionSecretKey d = Some from /\
     k = default from (v1alpha1.Name d) /\
     v <> [] /\ corev1.Data s !! from = Some v).
Proof.
  unfold writes, secret_data.
  destruct (v1alpha1.Name d) as [name|], (v1alpha1.Value d) as [value|];
    try (intros [= <- <-]; left; split; [done|]; by exists value);
    (destruct (v1alpha1.FromConnectionSecretKey d) as [from|]; [|discriminate];
     destruct (corev1.Data s !! from) as [b|] eqn:E; simpl; [|discriminate];
     destruct b as [|b0 b]; simpl; [discriminate|];
     intros [= <- <-]; right; exists from; by repeat split).
Qed.

(** X13. Every entry of the map [Fetch] returns comes from a connection
    detail of the template: from a literal, with its name as key and the
    bytes of its value; or from one that names a key of the secret the
    store answered with, the entry holding the bytes the secret has at that
    key, which are not empty, under the name of the connection detail or,
    without one, under the key of the secret. No other key of the secret
    gets into the map. *)
Theorem Fetch_entries_from_details (cdf : APIConnectionDetailsFetcher)
    (cd : resource.Composed) (t : v1alpha1.ComposedTemplate)
    (conn : managed.ConnectionDetails) (k : string) (v : list byte) :
  returned (Fetch cdf cd t) = Done (Some conn, None) ->
  conn !! k = Some v ->
  exists d, d ∈ v1alpha1.ConnectionDetails t /\
    ((v1alpha1.Name d = Some k /\
      exists value, v1alpha1.Value d = Some value /\ v = list_byte_of_string value) \/
     (exists from nn s,
        v1alpha1.FromConnectionSecretKey d = Some from /\
        k = default from (v1alpha1.Name d) /\
        v <> [] /\
        requested (Fetch cdf cd t) = [nn] /\
        client.Get (client_ cdf) nn = inl s /\
        corev1.Data s !! from = Some v)).
Proof.
  unfold managed.ConnectionDetails in *.
  destruct (Fetch_cases cdf cd t) as [(msg & H)|[(err & H)|(sref & Href & Hreq)]];
    [rewrite H; discriminate | rewrite H; discriminate |].
  rewrite Hreq, (Fetch_with_reference cdf cd t sref Href). simpl.
  destruct (client.Get (client_ cdf) (key_of sref)) as [s|e] eqn:G.
  - intros [= <-] Hk.
    destruct (fold_left_writes_lookup s k v _ _ Hk) as [Hk0|(d & Hin & Hw)];
      [unfold managed.ConnectionDetails in Hk0; by rewrite lookup_empty in Hk0|].
    exists d. split; [done|].
    destruct (writes_inv s d k v Hw) as [Hlit|(from & Hf & Hkey & Hv & Hdata)];
      [by left|].
    right. exists from, (key_of sref), s. by repeat split.
  - destruct (client.IsNotFound e); [|discriminate].
    intros [= <-] Hk.
    destruct (fold_left_writes_lookup _ k v _ _ Hk) as [Hk0|(d & Hin & Hw)];
      [unfold managed.ConnectionDetails in Hk0; by rewrite lookup_empty in Hk0|].
    exists d. split; [done|].
    destruct (writes_inv _ d k v Hw) as [Hlit|(from & _ & _ & _ & Hdata)];
      [by left|].
    simpl in Hdata. by rewrite lookup_empty in Hdata.
Qed.

Lemma Fetch_entries_from_details_witness :
  exists d, d ∈ user_and_password /\
    (v1alpha1.Name d = Some "pass" \/ v1alpha1.FromConnectionSecretKey d = Some "pass").
Proof.
  destruct (Fetch_entries_from_details (store_with conn_key larger_secret)
              (child_with_secret (VString "conn") (VString "prod")) by_path
              (<["pass" := list_byte_of_string "s3cr3t"]>
                 {[ "user" := list_byte_of_string "alice" ]})
              "pass" (list_byte_of_string "s3cr3t"))
    as (d & Hin & [[Hname _]|(from & nn & s & Hfrom & Hk & _)]).
  - vm_compute. reflexivity.
  - vm_compute. reflexivity.
  - exists d. split; [exact Hin | left; exact Hname].
  - exists d. split; [exact Hin|].
    destruct (v1alpha1.Name d) as [name|]; simpl in Hk.
    + left. by rewrite Hk.
    + right. by rewrite Hk.
Defined.

(** X14. The last connection detail that writes a key wins: when the
    store answers with a secret, the map [Fetch] returns has, under a key,
    the entry of the last connection detail of the template that writes
    this key, whatever connection details before it wrote there. *)
Theorem Fetch_last_write_wins (cdf : APIConnectionDetailsFetcher)
    (cd : resource.Composed) (t : v1alpha1.ComposedTemplate)
    (sref : runtimev1alpha1.SecretReference) (s : corev1.Secret)
    (pre post : list v1alpha1.ConnectionDetail) (d : v1alpha1.ConnectionDetail)
    (k : string) (v : list byte) :
  getWriteConnectionSecretToReference cd t = Done (Some sref, None) ->
  client.Get (client_ cdf) (key_of sref) = inl s ->
  v1alpha1.ConnectionDetails t = (pre ++ d :: post)%list ->
  writes s d = Some (k, v) ->
  Forall (fun d' => forall v', writes s d' <> Some (k, v')) post ->
  exists conn : gmap string (list byte),
    returned (Fetch cdf cd t) = Done (Some conn, None) /\ conn !! k = Some v.
Proof.
  intros Href Hget Hdetails Hw Hpost.
  rewrite (Fetch_with_reference cdf cd t sref Href). simpl. rewrite Hget.
  eexists. split; [reflexivity|].
  rewrite Hdetails, fold_left_app. simpl.
  rewrite (fold_left_writes_other s k post _ Hpost), connection_detail_writes, Hw.
  unfold managed.ConnectionDetails. apply lookup_insert_eq.
Qed.

Lemma Fetch_last_write_wins_witness :
  exists conn : gmap string (list byte),
    returned (Fetch (store_with conn_key password_secret)
                (child_with_secret (VString "conn") (VString "prod"))
                (with_details user_twice)) = Done (Some conn, None) /\
    conn !! "user" = Some (list_byte_of_string "s3cr3t").
Proof.
  apply (Fetch_last_write_wins (store_with conn_key password_secret)
           (child_with_secret (VString "conn") (VString "prod"))
           (with_details user_twice)
           {| runtimev1alpha1.Name := "conn"; runtimev1alpha1.Namespace := "prod" |}
           password_secret
           [ {| v1alpha1.Name := Some "user"; v1alpha1.FromConnectionSecretKey := None;
                v1alpha1.Value := Some "alice" |} ]
           []
           {| v1alpha1.Name := Some "user";
              v1alpha1.FromConnectionSecretKey := Some "password";
              v1alpha1.Value := None |}).
  - vm_compute. reflexivity.
  - vm_compute. reflexivity.
  - reflexivity.
  - vm_compute. reflexivity.
  - apply Forall_nil_2.
Defined.

(** Two secrets that hold the same bytes at the key a connection detail
    names are the same to it. *)
Lemma connection_detail_same_data s1 s2 conn d :
  (forall from, v1alpha1.FromConnectionSecretKey d = Some from ->
     secret_data s1 from = secret_data s2 from) ->
  connection_detail s1 conn d = connection_detail s2 conn d.
Proof.
  intros H. unfold connection_detail.
  destruct (v1alpha1.FromConnectionSecretKey d) as [from|];
    [rewrite (H from eq_refl)|]; reflexivity.
Qed.

Lemma fold_left_same_data s1 s2 details : forall conn,
  Forall (fun d => forall from, v1alpha1.FromConnectionSecretKey d = Some from ->
            secret_data s1 from = secret_data s2 from) details ->
  fold_left (connection_detail s1) details conn
  = fold_left (connection_detail s2) details conn.
Proof.
  induction details as [|d details IH]; intros conn Hall; simpl; [done|].
  inversion Hall as [|? ? Hd Hrest]; subst.
  by rewrite (connection_detail_same_data s1 s2 conn d Hd), (IH _ Hrest).
Qed.

(** X15. [Fetch] reads the secret at the keys the connection details of
    the template name and nowhere else: for two stores that answer with
    secrets holding the same bytes at these keys (a key without data
    counting as a key that is not there), [Fetch] returns the same. *)
Theorem Fetch_named_keys_only (cdf1 cdf2 : APIConnectionDetailsFetcher)
    (cd : resource.Composed) (t : v1alpha1.ComposedTemplate)
    (sref : runtimev1alpha1.SecretReference) (s1 s2 : corev1.Secret) :
  getWriteConnectionSecretToReference cd t = Done (Some sref, None) ->
  client.Get (client_ cdf1) (key_of sref) = inl s1 ->
  client.Get (client_ cdf2) (key_of sref) = inl s2 ->
  (forall d from, d ∈ v1alpha1.ConnectionDetails t ->
     v1alpha1.FromConnectionSecretKey d = Some from ->
     secret_data s1 from = secret_data s2 from) ->
  Fetch cdf1 cd t = Fetch cdf2 cd t.
Proof.
  intros Href H1 H2 Hsame.
  rewrite (Fetch_with_reference cdf1 cd t sref Href),
    (Fetch_with_reference cdf2 cd t sref Href), H1, H2.
  rewrite (fold_left_same_data s1 s2); [reflexivity|].
  apply Forall_forall. intros d Hin from Hfrom. by apply (Hsame d from).
Qed.

Lemma Fetch_named_keys_only_witness :
  Fetch (store_with conn_key password_secret)
    (child_with_secret (VString "conn") (VString "prod")) by_path
  = Fetch (store_with conn_key larger_secret)
      (child_with_secret (VString "conn") (VString "prod")) by_path.
Proof.
  apply (Fetch_named_keys_only (store_with conn_key password_secret)
           (store_with conn_key larger_secret)
           (child_with_secret (VString "conn") (VString "prod")) by_path
           {| runtimev1alpha1.Name := "conn"; runtimev1alpha1.Namespace := "prod" |}
           password_secret larger_secret).
  - vm_compute. reflexivity.
  - vm_compute. reflexivity.
  - vm_compute. reflexivity.
  - intros d from Hin Hfrom.
    apply list_elem_of_In in Hin. simpl in Hin.
    destruct Hin as [<-|[<-|[]]]; simpl in Hfrom; [discriminate|].
    injection Hfrom as <-. vm_compute. reflexivity.
Defined.

(** X16. A store that does not find the secret and a store that answers
    with a secret without data at the keys the connection details name are
    the same to [Fetch]: it returns the same map, after the same request. *)
Theorem Fetch_not_found_as_empty (cdf1 cdf2 : APIConnectionDetailsFetcher)
    (cd : resource.Composed) (t : v1alpha1.ComposedTemplate)
    (sref : runtimev1alpha1.SecretReference) (e : error) (s : corev1.Secret) :
  getWriteConnectionSecretToReference cd t = Done (Some sref, None) ->
  client.Get (client_ cdf1) (key_of sref) = inr e ->
  client.IsNotFound e = true ->
  client.Get (client_ cdf2) (key_of sref) = inl s ->
  (forall d from, d ∈ v1alpha1.ConnectionDetails t ->
     v1alpha1.FromConnectionSecretKey d = Some from ->
     secret_data s from = []) ->
  Fetch cdf1 cd t = Fetch cdf2 cd t.
Proof.
  intros Href H1 Hnf H2 Hempty.
  rewrite (Fetch_with_reference cdf1 cd t sref Href),
    (Fetch_with_reference cdf2 cd t sref Href), H1, H2, Hnf.
  rewrite (fold_left_same_data {| corev1.Data := ∅ |} s); [reflexivity|].
  apply Forall_forall. intros d Hin from Hfrom.
  rewrite (Hempty d from Hin Hfrom). unfold secret_data. simpl.
  by rewrite lookup_empty.
Qed.

Lemma Fetch_not_found_as_empty_witness :
  Fetch (store_with conn_key password_secret)
    (child_with_secret (VString "other") (VString "prod")) by_path
  = Fetch (store_with {| types.Namespace := "prod"; types.Name := "other" |} empty_secret)
      (child_with_secret (VString "other") (VString "prod")) by_path.
Proof.
  apply (Fetch_not_found_as_empty (store_with conn_key password_secret)
           (store_with {| types.Namespace := "prod"; types.Name := "other" |} empty_secret)
           (child_with_secret (VString "other") (VString "prod")) by_path
           {| runtimev1alpha1.Name := "other"; runtimev1alpha1.Namespace := "prod" |}
           (StatusError "NotFound" "secret not found") empty_secret).
  - vm_compute. reflexivity.
  - vm_compute. reflexivity.
  - reflexivity.
  - vm_compute. reflexivity.
  - intros d from _ _. reflexivity.
Defined.

(** ** Overlay: what all patches keep *)

Lemma overlay_from_preserves (P : resource.Composed -> Prop) cp patches :
  forall i cd,
  (forall p cd0, p ∈ patches -> P cd0 -> P (fst (v1alpha1.Apply p cp cd0))) ->
  P cd -> P (fst (overlay_from i cp cd patches)).
Proof.
  induction patches as [|p ps IH]; intros i cd Hkeep Hcd; simpl; [done|].
  pose proof (Hkeep p cd (list_elem_of_here _ _) Hcd) as Hp.
  destruct (v1alpha1.Apply p cp cd) as [cd' [err|]]; simpl in *; [done|].
  apply IH; [|done]. intros q cd0 Hq. apply Hkeep. by apply list_elem_of_further.
Qed.

(** X17. What every patch of the template keeps, [Overlay] keeps: a
    property of the composed resource that holds before the call and that
    no patch of the template breaks, whether the patch succeeds or fails,
    holds of the composed resource [Overlay] leaves, whether [Overlay]
    succeeds or fails. *)
Theorem Overlay_preserves (P : resource.Composed -> Prop)
    (cp : resource.Composite) (cd : resource.Composed)
    (t : v1alpha1.ComposedTemplate) :
  (forall p cd0, p ∈ v1alpha1.Patches t -> P cd0 ->
     P (fst (v1alpha1.Apply p cp cd0))) ->
  P cd ->
  P (fst (Overlay cp cd t)).
Proof. unfold Overlay. intros Hkeep Hcd. by apply overlay_from_preserves. Qed.

Lemma Overlay_preserves_witness :
  metav1.GetName (fst (Overlay unlabelled_parent child_x three_patches)) = "x".
Proof.
  apply (Overlay_preserves (fun cd => metav1.GetName cd = "x")
           unlabelled_parent child_x three_patches).
  - intros p cd0 Hin Hname.
    apply list_elem_of_In in Hin. simpl in Hin.
    destruct Hin as [<-|[<-|[<-|[]]]]; exact Hname.
  - reflexivity.
Defined.
